(** * AuctionMania: the bidding state machine and its socket layer

    A shallow embedding of the server side of the repository
    (models/Auction.js, services/AuctionService.js, utils/socketHandlers.js,
    the bid-history route of server.js) and of the clock helpers of the
    client (context/AuctionContext.js), followed by the properties of the
    design document that are stated about them.

    Conventions of the embedding.
    - JavaScript numbers that carry prices and epoch milliseconds are
      integers of [Z], which is exact for the integers a double holds
      without rounding (below 2^53 in absolute value); NaN, infinities and
      fractions are outside the model.
    - A JavaScript object literal is a record; a field that a literal may
      leave out has type [option _] ([None] is [undefined]); a field that
      holds [null] or a string has type [option string] ([None] is [null]).
    - Objects are mutated in place in the source; here every method takes
      the object and returns the updated one.
    - [Date.now()] is an input: every call site of a method receives the
      value the clock returned there as an argument of its own, so that a
      clock that advances during a call is covered. *)

From stdpp Require Import gmap strings list fin_maps pretty.

Local Open Scope Z_scope.

(** ** JavaScript values that travel in socket payloads *)

Inductive JsValue :=
| JsUndefined
| JsNull
| JsBoolean (b : bool)
| JsNumber (n : Z)
| JsString (s : string)
| JsObject.

Definition typeof (v : JsValue) : string :=
  match v with
  | JsUndefined => "undefined"
  | JsNull => "object"
  | JsBoolean _ => "boolean"
  | JsNumber _ => "number"
  | JsString _ => "string"
  | JsObject => "object"
  end.

(** The number a value of type "number" holds; read only behind a
    [typeof] test. *)
Definition number_of (v : JsValue) : Z :=
  match v with
  | JsNumber n => n
  | _ => 0
  end.

(** ** models/Auction.js *)

Module Auction.

(** An entry of [bidHistory]: [{ userId, amount, timestamp }]. *)
Record Bid := mkBid {
  userId : string;
  amount : Z;
  timestamp : Z;
}.

(** The fields set by the constructor. *)
Record t := mk {
  id : string;
  title : string;
  startingPrice : Z;
  currentBid : Z;
  highestBidder : option string;
  endTime : Z;
  biddingLock : bool;
  bidHistory : list Bid;
  minBidIncrement : Z;
}.

(** [new Auction(id, title, startingPrice, duration)], the constructor
    reading the clock at [now]. *)
Definition new (id title : string) (startingPrice duration now : Z) : t :=
  {| id := id;
     title := title;
     startingPrice := startingPrice;
     currentBid := startingPrice;
     highestBidder := None;
     endTime := now + duration;
     biddingLock := false;
     bidHistory := [];
     minBidIncrement := 10 |}.

Definition isActive (a : t) (now : Z) : bool := now <? endTime a.

Definition getTimeRemaining (a : t) (now : Z) : Z := Z.max 0 (endTime a - now).

Definition getMinimumNextBid (a : t) : Z := currentBid a + minBidIncrement a.

(** The object [placeBid] returns.  Each branch of the source builds a
    literal with [success], [message] and some of the other fields. *)
Record BidResult := mkResult {
  success : bool;
  message : string;
  minimumBid : option Z;
  r_currentBid : option Z;
  r_highestBidder : option (option string);
  newBid : option Z;
  previousBid : option Z;
  previousBidder : option (option string);
}.

(** [{ success: false, message }] *)
Definition failure (msg : string) : BidResult :=
  {| success := false; message := msg; minimumBid := None;
     r_currentBid := None; r_highestBidder := None; newBid := None;
     previousBid := None; previousBidder := None |}.

Definition ended : BidResult := failure "Auction has ended".

(** [{ success: false, message: `Bid must be at least ${minBid}`,
       minimumBid: minBid }] *)
Definition below_minimum (minBid : Z) : BidResult :=
  {| success := false;
     message := "Bid must be at least " +:+ pretty minBid;
     minimumBid := Some minBid;
     r_currentBid := None; r_highestBidder := None; newBid := None;
     previousBid := None; previousBidder := None |}.

Definition busy : BidResult :=
  failure "Another bid is being processed, please try again".

(** [{ success: false, message: `Outbid! Current bid is ${this.currentBid}`,
       currentBid, highestBidder }] *)
Definition outbid (a : t) : BidResult :=
  {| success := false;
     message := "Outbid! Current bid is " +:+ pretty (currentBid a);
     minimumBid := None;
     r_currentBid := Some (currentBid a);
     r_highestBidder := Some (highestBidder a);
     newBid := None; previousBid := None; previousBidder := None |}.

(** The literal of the accepting branch. *)
Definition placed (bidAmount previousBid : Z) (previousBidder : option string)
    (userId : string) : BidResult :=
  {| success := true;
     message := "Bid placed successfully";
     minimumBid := None; r_currentBid := None;
     r_highestBidder := Some (Some userId);
     newBid := Some bidAmount;
     previousBid := Some previousBid;
     previousBidder := Some previousBidder |}.

Definition set_biddingLock (b : bool) (a : t) : t :=
  {| id := id a; title := title a; startingPrice := startingPrice a;
     currentBid := currentBid a; highestBidder := highestBidder a;
     endTime := endTime a; biddingLock := b; bidHistory := bidHistory a;
     minBidIncrement := minBidIncrement a |}.

(** The three assignments of the accepting branch:
    [this.currentBid = bidAmount; this.highestBidder = userId;
     this.bidHistory.push({ userId, amount: bidAmount, timestamp })]. *)
Definition commit (a : t) (userId : string) (bidAmount now : Z) : t :=
  {| id := id a; title := title a; startingPrice := startingPrice a;
     currentBid := bidAmount; highestBidder := Some userId;
     endTime := endTime a; biddingLock := biddingLock a;
     bidHistory := bidHistory a ++ [mkBid userId bidAmount now];
     minBidIncrement := minBidIncrement a |}.

(** The body of the [try] block, entered with the lock flag set. *)
Definition locked_section (a : t) (userId : string) (bidAmount : Z)
    (now_locked now_push : Z) : BidResult * t :=
  if negb (isActive a now_locked) then (ended, a)
  else
    let currentMinBid := getMinimumNextBid a in
    if bidAmount <? currentMinBid then (outbid a, a)
    else
      let previousBidder := highestBidder a in
      let previousBid := currentBid a in
      (placed bidAmount previousBid previousBidder userId,
       commit a userId bidAmount now_push).

(** [placeBid(userId, bidAmount)].  [now_entry], [now_locked] and
    [now_push] are what [Date.now()] returns in the first [isActive()],
    in the [isActive()] of the [try] block and in the pushed entry.
    The [finally] clause runs on every way out of the [try] block. *)
Definition placeBid (a : t) (userId : string) (bidAmount : Z)
    (now_entry now_locked now_push : Z) : BidResult * t :=
  if negb (isActive a now_entry) then (ended, a)
  else
    let minBid := getMinimumNextBid a in
    if bidAmount <? minBid then (below_minimum minBid, a)
    else if biddingLock a then (busy, a)
    else
      let a1 := set_biddingLock true a in
      let '(result, a2) := locked_section a1 userId bidAmount now_locked now_push in
      (result, set_biddingLock false a2).

(** [getState()]: [now_remaining] is the clock in [getTimeRemaining()],
    [now_active] the clock in [isActive()]. *)
Record State := mkState {
  s_id : string;
  s_title : string;
  s_startingPrice : Z;
  s_currentBid : Z;
  s_highestBidder : option string;
  s_endTime : Z;
  s_timeRemaining : Z;
  s_isActive : bool;
  s_minBidIncrement : Z;
}.

Definition getState (a : t) (now_remaining now_active : Z) : State :=
  {| s_id := id a;
     s_title := title a;
     s_startingPrice := startingPrice a;
     s_currentBid := currentBid a;
     s_highestBidder := highestBidder a;
     s_endTime := endTime a;
     s_timeRemaining := getTimeRemaining a now_remaining;
     s_isActive := isActive a now_active;
     s_minBidIncrement := minBidIncrement a |}.

(** One call of [placeBid] with the clock values it sees. *)
Record Call := mkCall {
  c_userId : string;
  c_amount : Z;
  c_entry : Z;
  c_locked : Z;
  c_push : Z;
}.

Definition call (a : t) (c : Call) : BidResult * t :=
  placeBid a (c_userId c) (c_amount c) (c_entry c) (c_locked c) (c_push c).

(** A sequence of calls on one auction object: the results in call order
    and the object after the last call. *)
Fixpoint run (a : t) (cs : list Call) : list BidResult * t :=
  match cs with
  | [] => ([], a)
  | c :: cs' =>
      let '(r, a1) := call a c in
      let '(rs, a2) := run a1 cs' in
      (r :: rs, a2)
  end.

(** The auction objects that can exist: built by the constructor and
    changed by [placeBid] only. *)
Inductive reachable : t → Prop :=
| reachable_new id title startingPrice duration now :
    reachable (new id title startingPrice duration now)
| reachable_placeBid a c :
    reachable a → reachable (call a c).2.


(** Strictly increasing sequence of amounts. *)
Definition strictly_increasing (l : list Z) : Prop :=
  ∀ (i j : nat) x y, l !! i = Some x → l !! j = Some y → (i < j)%nat → x < y.

(** The invariant of the auction object: the flag is down between calls,
    the increment is the constructor's, and price, leader and history
    agree. *)
Record invariant (a : t) : Prop := mkInvariant {
  inv_unlocked : biddingLock a = false;
  inv_increment : minBidIncrement a = 10;
  inv_floor : startingPrice a ≤ currentBid a;
  inv_bounded : ∀ x, x ∈ amount <$> bidHistory a → x ≤ currentBid a;
  inv_increasing : strictly_increasing (amount <$> bidHistory a);
  inv_price : currentBid a = default (startingPrice a) (amount <$> last (bidHistory a));
  inv_leader : highestBidder a = userId <$> last (bidHistory a);
}.

End Auction.

(** ** The bid state machine as the design document words it (sections 3, 4.1)

    Written from the text of the document, not from the source; it is
    compared with [Auction.placeBid] below. *)

Module DesignSpec.

Inductive Reason := INVALID_INPUT | AUCTION_CLOSED | BID_TOO_LOW | NOT_FOUND.

(** An accepted bid [(bidderId, amount, timestamp)]. *)
Record Entry := mkEntry {
  e_bidderId : string;
  e_amount : Z;
  e_timestamp : Z;
}.

Record Auction := mkAuction {
  id : string;
  title : string;
  startingPrice : Z;
  currentBid : Z;
  leaderId : option string;
  deadline : Z;
  minIncrement : Z;
  history : list Entry;
}.

(** [BidResult]: the fields a result may carry. *)
Record BidResult := mkBidResult {
  accepted : bool;
  reason : option Reason;
  r_currentBid : option Z;
  r_minBid : option Z;
  r_newBid : option Z;
  r_leaderId : option (option string);
  r_previousLeader : option (option string);
  r_previousBid : option Z;
}.

(** [{accepted:false, reason}] *)
Definition rejected (why : Reason) : BidResult :=
  {| accepted := false; reason := Some why; r_currentBid := None;
     r_minBid := None; r_newBid := None; r_leaderId := None;
     r_previousLeader := None; r_previousBid := None |}.

(** The three steps of the algorithm of section 4.1. *)
Definition placeBid (s : Auction) (bidderId : string) (amount now : Z)
    : BidResult * Auction :=
  if bool_decide (now >= deadline s) then (rejected AUCTION_CLOSED, s)
  else
    let minBid := currentBid s + minIncrement s in
    if bool_decide (amount < minBid) then
      ({| accepted := false; reason := Some BID_TOO_LOW;
          r_currentBid := Some (currentBid s); r_minBid := Some minBid;
          r_newBid := None; r_leaderId := None;
          r_previousLeader := None; r_previousBid := None |}, s)
    else
      let previousLeader := leaderId s in
      let previousBid := currentBid s in
      ({| accepted := true; reason := None;
          r_currentBid := None; r_minBid := None;
          r_newBid := Some amount; r_leaderId := Some (Some bidderId);
          r_previousLeader := Some previousLeader;
          r_previousBid := Some previousBid |},
       {| id := id s; title := title s; startingPrice := startingPrice s;
          currentBid := amount; leaderId := Some bidderId;
          deadline := deadline s; minIncrement := minIncrement s;
          history := history s ++ [mkEntry bidderId amount now] |}).


End DesignSpec.

(** ** Reading the source's objects in the document's vocabulary *)

Module Reading.

(** The source reports a rejection as a message; the document names the
    reason.  The two threshold messages both mean "below the minimum". *)
Definition reason_of_message (msg : string) : option DesignSpec.Reason :=
  if String.eqb msg "Auction has ended" then Some DesignSpec.AUCTION_CLOSED
  else if String.prefix "Bid must be at least " msg then Some DesignSpec.BID_TOO_LOW
  else if String.prefix "Outbid! Current bid is " msg then Some DesignSpec.BID_TOO_LOW
  else if String.eqb msg "Invalid bid amount" then Some DesignSpec.INVALID_INPUT
  else if String.eqb msg "Auction not found" then Some DesignSpec.NOT_FOUND
  else None.

(** Field by field: [success] is [accepted], [minimumBid] is [minBid],
    [highestBidder] is [leaderId], [previousBidder] is [previousLeader]. *)
Definition result (r : Auction.BidResult) : DesignSpec.BidResult :=
  {| DesignSpec.accepted := Auction.success r;
     DesignSpec.reason :=
       if Auction.success r then None
       else reason_of_message (Auction.message r);
     DesignSpec.r_currentBid := Auction.r_currentBid r;
     DesignSpec.r_minBid := Auction.minimumBid r;
     DesignSpec.r_newBid := Auction.newBid r;
     DesignSpec.r_leaderId := Auction.r_highestBidder r;
     DesignSpec.r_previousLeader := Auction.previousBidder r;
     DesignSpec.r_previousBid := Auction.previousBid r |}.

Definition entry (b : Auction.Bid) : DesignSpec.Entry :=
  DesignSpec.mkEntry (Auction.userId b) (Auction.amount b) (Auction.timestamp b).

(** The document's auction has no lock flag; every other field is kept. *)
Definition auction (a : Auction.t) : DesignSpec.Auction :=
  {| DesignSpec.id := Auction.id a;
     DesignSpec.title := Auction.title a;
     DesignSpec.startingPrice := Auction.startingPrice a;
     DesignSpec.currentBid := Auction.currentBid a;
     DesignSpec.leaderId := Auction.highestBidder a;
     DesignSpec.deadline := Auction.endTime a;
     DesignSpec.minIncrement := Auction.minBidIncrement a;
     DesignSpec.history := entry <$> Auction.bidHistory a |}.

End Reading.

(** ** services/AuctionService.js *)

Module AuctionService.

Record t := mk {
  auctions : gmap string Auction.t;
}.

Definition sampleItems : list (string * Z) :=
  [("Vintage Camera", 50); ("Rare Book Collection", 30);
   ("Antique Watch", 100); ("Leather Jacket", 40);
   ("Gaming Console", 200); ("Original Painting", 150)].

(** [initializeSampleAuctions()]: [uuidv4 k] is the identifier drawn for
    the [k]-th item and [now k] the clock in its constructor. *)
Definition initializeSampleAuctions (uuidv4 : nat → string) (now : nat → Z) : t :=
  {| auctions :=
       foldl (λ m '(k, (title, startingPrice)),
                let id := uuidv4 k in
                <[id := Auction.new id title startingPrice (5 * 60 * 1000) (now k)]> m)
             ∅ (imap (λ k item, (k, item)) sampleItems) |}.

Definition getAuction (svc : t) (auctionId : string)
    (now_remaining now_active : Z) : option Auction.State :=
  match auctions svc !! auctionId with
  | Some auction => Some (Auction.getState auction now_remaining now_active)
  | None => None
  end.

(** What [placeBid] of the service returns: the fields of the auction's
    result spread into a new object, [auctionId] and [statusCode]. *)
Record Result := mkResult {
  bid : Auction.BidResult;
  r_auctionId : option string;
  statusCode : Z;
}.

Definition not_found : Result :=
  {| bid := Auction.failure "Auction not found"; r_auctionId := None;
     statusCode := 404 |}.

Definition invalid_amount : Result :=
  {| bid := Auction.failure "Invalid bid amount"; r_auctionId := None;
     statusCode := 400 |}.

(** [placeBid(auctionId, userId, bidAmount)].  The auction object stored
    in the map is the one [Auction.placeBid] mutates. *)
Definition placeBid (svc : t) (auctionId userId : string) (bidAmount : JsValue)
    (now_entry now_locked now_push : Z) : Result * t :=
  match auctions svc !! auctionId with
  | None => (not_found, svc)
  | Some auction =>
      if negb (String.eqb (typeof bidAmount) "number")
         || (number_of bidAmount <=? 0)
      then (invalid_amount, svc)
      else
        let '(result, auction') :=
          Auction.placeBid auction userId (number_of bidAmount)
            now_entry now_locked now_push in
        ({| bid := result; r_auctionId := Some auctionId;
            statusCode := if Auction.success result then 200 else 400 |},
         {| auctions := <[auctionId := auction']> (auctions svc) |})
  end.


(** [getBidHistory(auctionId)]: an array in both branches ([None] would
    be [null]). *)
Definition getBidHistory (svc : t) (auctionId : string) : option (list Auction.Bid) :=
  match auctions svc !! auctionId with
  | Some auction => Some (Auction.bidHistory auction)
  | None => Some []
  end.

(** Every auction of the registry was built by the constructor and
    changed by [Auction.placeBid] only. *)
Definition registry_ok (svc : t) : Prop :=
  ∀ auctionId auction,
    auctions svc !! auctionId = Some auction → Auction.reachable auction.

End AuctionService.

(** ** server.js: the two lookup routes *)

Module Routes.

(** A JSON response: the status and the fields of the body. *)
Record Response (A : Type) := mkResponse {
  status : Z;
  body_success : bool;
  body_message : option string;
  body_data : option A;
  body_serverTime : option Z;
}.
Arguments mkResponse {A}.
Arguments status {A}.
Arguments body_success {A}.
Arguments body_message {A}.
Arguments body_data {A}.
Arguments body_serverTime {A}.

Definition auction_not_found {A} : Response A :=
  mkResponse 404 false (Some "Auction not found") None None.

Definition ok {A} (data : A) (serverTime : Z) : Response A :=
  mkResponse 200 true None (Some data) (Some serverTime).

(** [GET /items/:auctionId] *)
Definition get_item (svc : AuctionService.t) (auctionId : string)
    (now_remaining now_active now : Z) : Response Auction.State :=
  match AuctionService.getAuction svc auctionId now_remaining now_active with
  | None => auction_not_found
  | Some auction => ok auction now
  end.

(** [GET /items/:auctionId/bid-history]: 404 when the service answers
    [null]. *)
Definition get_bid_history (svc : AuctionService.t) (auctionId : string)
    (now : Z) : Response (list Auction.Bid) :=
  match AuctionService.getBidHistory svc auctionId with
  | None => auction_not_found
  | Some history => ok history now
  end.

End Routes.

(** ** utils/socketHandlers.js over socket.io's rooms

    socket.io keeps, for every room name, the set of sockets in it; a
    socket joins the room named by its own id when it connects and leaves
    every room when it disconnects.  [io.to(room).emit] reaches the
    members of [room], [socket.emit] the socket itself. *)

Module SocketHandlers.

Record Server := mkServer {
  service : AuctionService.t;
  rooms : gmap string (gset string);
  sockets : gmap string string;
}.

(** Payloads sent by the server. *)
Inductive ServerEvent :=
| AUCTION_STATE (auction : option Auction.State) (serverTime : Z)
| USER_JOINED (auctionId : string) (totalUsers : nat)
| USER_LEFT (auctionId : string) (totalUsers : nat)
| BID_UPDATE (auctionId : string) (newBid : option Z)
    (highestBidder previousBidder : option (option string))
    (previousBid : option Z) (timestamp : Z)
| BID_SUCCESS (auctionId : string) (message : string) (newBid : option Z)
| OUTBID (auctionId : string) (newBid : option Z) (outbidBy : string)
    (timestamp : Z)
| BID_ERROR (auctionId : string) (message : string)
    (currentBid minimumBid : option Z) (timestamp : Z)
| HEARTBEAT_ACK (serverTime : Z) (clientTime : JsValue).

(** Payloads sent by a client.  [HEARTBEAT None] carries no data;
    [HEARTBEAT (Some v)] carries [{ clientTime: v }]. *)
Inductive ClientEvent :=
| JOIN_AUCTION (auctionId : string)
| LEAVE_AUCTION (auctionId : string)
| BID_PLACED (auctionId : string) (amount : JsValue)
| HEARTBEAT (clientData : option JsValue)
| GET_AUCTION_STATE (auctionId : string).

Inductive Target :=
| ToSocket (socketId : string)
| ToRoom (room : string).

(** One [emit]: where it was addressed, the sockets that are sent the
    payload, and the payload. *)
Record Emission := mkEmission {
  target : Target;
  recipients : gset string;
  event : ServerEvent;
}.

Definition members (rooms : gmap string (gset string)) (room : string) : gset string :=
  default ∅ (rooms !! room).

Definition join (socketId room : string) (rooms : gmap string (gset string))
    : gmap string (gset string) :=
  <[room := {[socketId]} ∪ members rooms room]> rooms.

Definition leave (socketId room : string) (rooms : gmap string (gset string))
    : gmap string (gset string) :=
  <[room := members rooms room ∖ {[socketId]}]> rooms.

Definition socket_emit (socketId : string) (ev : ServerEvent) : Emission :=
  {| target := ToSocket socketId; recipients := {[socketId]}; event := ev |}.

Definition io_to_emit (srv : Server) (room : string) (ev : ServerEvent) : Emission :=
  {| target := ToRoom room; recipients := members (rooms srv) room; event := ev |}.

Definition with_rooms (srv : Server) (rooms' : gmap string (gset string)) : Server :=
  {| service := service srv; rooms := rooms'; sockets := sockets srv |}.

Definition with_service (srv : Server) (svc : AuctionService.t) : Server :=
  {| service := svc; rooms := rooms srv; sockets := sockets srv |}.

(** The clock of one handler run: [clock k] is what [Date.now()] returns
    at the [k]-th call site the handler can reach, in source order. *)
Definition Clock := nat → Z.

(** [const userId = socket.handshake.query.userId || socket.id] *)
Definition handshake_userId (socketId : string) (query_userId : option string) : string :=
  match query_userId with
  | Some u => if String.eqb u "" then socketId else u
  | None => socketId
  end.

Definition on_connection (srv : Server) (socketId : string)
    (query_userId : option string) : Server :=
  {| service := service srv;
     rooms := join socketId socketId (rooms srv);
     sockets := <[socketId := handshake_userId socketId query_userId]> (sockets srv) |}.

Definition on_disconnect (srv : Server) (socketId : string) : Server :=
  {| service := service srv;
     rooms := (λ room, room ∖ {[socketId]}) <$> rooms srv;
     sockets := delete socketId (sockets srv) |}.

Definition on_JOIN_AUCTION (srv : Server) (socketId : string)
    (auctionId : string) (clock : Clock) : Server * list Emission :=
  let room := "auction:" +:+ auctionId in
  let srv1 := with_rooms srv (join socketId room (rooms srv)) in
  match AuctionService.getAuction (service srv1) auctionId (clock 0%nat) (clock 1%nat) with
  | Some auctionState =>
      (srv1,
       [socket_emit socketId (AUCTION_STATE (Some auctionState) (clock 2%nat));
        io_to_emit srv1 room
          (USER_JOINED auctionId (size (members (rooms srv1) room)))])
  | None => (srv1, [])
  end.

Definition on_LEAVE_AUCTION (srv : Server) (socketId : string)
    (auctionId : string) : Server * list Emission :=
  let room := "auction:" +:+ auctionId in
  let srv1 := with_rooms srv (leave socketId room (rooms srv)) in
  (srv1, [io_to_emit srv1 room
            (USER_LEFT auctionId (size (members (rooms srv1) room)))]).

(** [result.previousBidder && result.previousBidder !== userId], and the
    previous bidder it lets through. *)
Definition outbid_previous (previousBidder : option (option string))
    (userId : string) : option string :=
  match previousBidder with
  | Some (Some previous) =>
      if negb (String.eqb previous "") && negb (String.eqb previous userId)
      then Some previous else None
  | _ => None
  end.

Definition on_BID_PLACED (srv : Server) (socketId userId : string)
    (auctionId : string) (amount : JsValue) (clock : Clock)
    : Server * list Emission :=
  let '(result, svc1) :=
    AuctionService.placeBid (service srv) auctionId userId amount
      (clock 0%nat) (clock 1%nat) (clock 2%nat) in
  let srv1 := with_service srv svc1 in
  let r := AuctionService.bid result in
  if Auction.success r then
    (srv1,
     [io_to_emit srv1 ("auction:" +:+ auctionId)
        (BID_UPDATE auctionId (Auction.newBid r) (Auction.r_highestBidder r)
           (Auction.previousBidder r) (Auction.previousBid r) (clock 3%nat));
      socket_emit socketId
        (BID_SUCCESS auctionId "Your bid was accepted!" (Auction.newBid r))]
     ++ match outbid_previous (Auction.previousBidder r) userId with
        | Some previous =>
            [io_to_emit srv1 ("user:" +:+ previous)
               (OUTBID auctionId (Auction.newBid r) userId (clock 4%nat))]
        | None => []
        end)
  else
    (srv1,
     [socket_emit socketId
        (BID_ERROR auctionId (Auction.message r) (Auction.r_currentBid r)
           (Auction.minimumBid r) (clock 5%nat))]).

(** [clientData?.clientTime] *)
Definition clientTime_of (clientData : option JsValue) : JsValue :=
  match clientData with
  | Some v => v
  | None => JsUndefined
  end.

Definition on_HEARTBEAT (srv : Server) (socketId : string)
    (clientData : option JsValue) (clock : Clock) : Server * list Emission :=
  (srv, [socket_emit socketId
           (HEARTBEAT_ACK (clock 0%nat) (clientTime_of clientData))]).

Definition on_GET_AUCTION_STATE (srv : Server) (socketId : string)
    (auctionId : string) (clock : Clock) : Server * list Emission :=
  (srv, [socket_emit socketId
           (AUCTION_STATE
              (AuctionService.getAuction (service srv) auctionId
                 (clock 0%nat) (clock 1%nat))
              (clock 2%nat))]).

(** What reaches the server: a new connection with the [userId] of its
    handshake query, a message on a socket, a disconnection. *)
Inductive Input :=
| Connection (socketId : string) (query_userId : option string)
| Message (socketId : string) (ev : ClientEvent) (clock : Clock)
| Disconnect (socketId : string).

(** The handlers registered by [initializeSocketHandlers(io, socket)]
    close over the [userId] computed at connection. *)
Definition step (srv : Server) (i : Input) : Server * list Emission :=
  match i with
  | Connection socketId query_userId =>
      (on_connection srv socketId query_userId, [])
  | Disconnect socketId => (on_disconnect srv socketId, [])
  | Message socketId ev clock =>
      match sockets srv !! socketId with
      | None => (srv, [])
      | Some userId =>
          match ev with
          | JOIN_AUCTION auctionId => on_JOIN_AUCTION srv socketId auctionId clock
          | LEAVE_AUCTION auctionId => on_LEAVE_AUCTION srv socketId auctionId
          | BID_PLACED auctionId amount =>
              on_BID_PLACED srv socketId userId auctionId amount clock
          | HEARTBEAT clientData => on_HEARTBEAT srv socketId clientData clock
          | GET_AUCTION_STATE auctionId =>
              on_GET_AUCTION_STATE srv socketId auctionId clock
          end
      end
  end.

Fixpoint run (srv : Server) (inputs : list Input) : Server * list Emission :=
  match inputs with
  | [] => (srv, [])
  | i :: rest =>
      let '(srv1, out1) := step srv i in
      let '(srv2, out2) := run srv1 rest in
      (srv2, out1 ++ out2)
  end.

(** The result of the service's [placeBid] when the input is a bid
    message on a connected socket. *)
Definition placeBid_result (srv : Server) (i : Input) : option AuctionService.Result :=
  match i with
  | Message socketId (BID_PLACED auctionId amount) clock =>
      match sockets srv !! socketId with
      | Some userId =>
          Some (AuctionService.placeBid (service srv) auctionId userId amount
                  (clock 0%nat) (clock 1%nat) (clock 2%nat)).1
      | None => None
      end
  | _ => None
  end.

(** The results of all [placeBid] calls of a run, in call order. *)
Fixpoint placeBid_results (srv : Server) (inputs : list Input)
    : list AuctionService.Result :=
  match inputs with
  | [] => []
  | i :: rest =>
      match placeBid_result srv i with
      | Some r => [r]
      | None => []
      end ++ placeBid_results (step srv i).1 rest
  end.

(** The server after process start: no socket, no room. *)
Definition start (svc : AuctionService.t) : Server :=
  {| service := svc; rooms := ∅; sockets := ∅ |}.

(** Socket ids are drawn by engine.io from letters, digits, [-] and [_]. *)
Definition id_char (c : Ascii.ascii) : bool :=
  let n := Ascii.nat_of_ascii c in
  ((48 <=? n) && (n <=? 57) || (65 <=? n) && (n <=? 90)
   || (97 <=? n) && (n <=? 122) || (n =? 45) || (n =? 95))%nat.

Fixpoint socket_id (s : string) : bool :=
  match s with
  | EmptyString => true
  | String c rest => id_char c && socket_id rest
  end.

Definition well_formed (i : Input) : Prop :=
  match i with
  | Connection socketId _ => socket_id socketId = true
  | _ => True
  end.

(** Server states that inputs can produce after process start. *)
Definition reachable (srv : Server) : Prop :=
  ∃ svc inputs, Forall well_formed inputs ∧ srv = (run (start svc) inputs).1.

(** The sockets that are sent an [OUTBID] among a list of emissions. *)
Definition is_OUTBID (e : Emission) : bool :=
  match event e with
  | OUTBID _ _ _ _ => true
  | _ => false
  end.

Definition outbid_recipients (out : list Emission) : gset string :=
  ⋃ ((λ e, if is_OUTBID e then recipients e else ∅) <$> out).

(** Every clock value an input's handler reads is [t] or later. *)
Definition reads_from (t : Z) (i : Input) : Prop :=
  match i with
  | Message _ _ clock => ∀ k, t ≤ clock k
  | _ => True
  end.

(** No socket is in a room named [user:...]. *)
Definition no_user_room (rooms : gmap string (gset string)) : Prop :=
  ∀ previous, members rooms ("user:" +:+ previous) = ∅.

(** Two inputs that are the same up to the [clientTime] of a heartbeat. *)
Inductive heartbeat_variant : Input → Input → Prop :=
| same_input i : heartbeat_variant i i
| other_clientTime socketId d1 d2 clock :
    heartbeat_variant (Message socketId (HEARTBEAT d1) clock)
                      (Message socketId (HEARTBEAT d2) clock).

(** An emission without the echo of the client's time. *)
Definition without_clientTime (e : Emission) : Emission :=
  match event e with
  | HEARTBEAT_ACK serverTime _ =>
      {| target := target e; recipients := recipients e;
         event := HEARTBEAT_ACK serverTime JsUndefined |}
  | _ => e
  end.

End SocketHandlers.

(** ** client/src/context/AuctionContext.js: the clock offset *)

Module AuctionContext.

Record t := mk {
  serverTime : Z;
  timeOffset : Z;
}.

(** [useState(Date.now())] and [useState(0)]. *)
Definition initial (now : Z) : t := {| serverTime := now; timeOffset := 0 |}.

Definition syncServerTime (c : t) (newServerTime now : Z) : t :=
  {| serverTime := newServerTime; timeOffset := newServerTime - now |}.

Definition getClientServerTime (c : t) (now : Z) : Z := now + timeOffset c.

End AuctionContext.

(** ** The scenario of the design document, section 8

    One auction starting at 50; bidders X and Y, each on a socket of its
    own, both subscribed; X has bid 60 and leads; then Y bids 70. *)

Module Scenario.

Import SocketHandlers.

Definition one_auction : AuctionService.t :=
  {| AuctionService.auctions :=
       {[ "a1" := Auction.new "a1" "Vintage Camera" 50 300000 0 ]} |}.

(** A clock that reads 1000 at every call site. *)
Definition at_1000 : Clock := λ _, 1000.

Definition X_leads : list Input :=
  [Connection "sX" (Some "X");
   Connection "sY" (Some "Y");
   Message "sX" (JOIN_AUCTION "a1") at_1000;
   Message "sY" (JOIN_AUCTION "a1") at_1000;
   Message "sX" (BID_PLACED "a1" (JsNumber 60)) at_1000].

Definition Y_bids_70 : Input :=
  Message "sY" (BID_PLACED "a1" (JsNumber 70)) at_1000.

(** The same session twice, the client's clock reading 5 in one and
    999999 in the other when it sends its heartbeat. *)
Definition session (clientTime : Z) : list Input :=
  [Connection "sX" (Some "X");
   Message "sX" (JOIN_AUCTION "a1") at_1000;
   Message "sX" (HEARTBEAT (Some (JsNumber clientTime))) at_1000;
   Message "sX" (BID_PLACED "a1" (JsNumber 60)) at_1000].

End Scenario.

(** ** services/AuctionService.js: the listing

    [this.auctions] is a JavaScript [Map]; [values()] walks it in the
    order the keys were first set.  The registry above keeps no order, so
    the listing takes that order as an argument. *)

Module Listing.

(** [getAllAuctions()]: [insertion_order] lists the keys of the map in
    the order they were set; [clock k] holds the two clock values read by
    the [k]-th [getState()]. *)
Definition getAllAuctions (svc : AuctionService.t)
    (insertion_order : list string) (clock : nat → Z * Z) : list Auction.State :=
  imap (λ k auction, Auction.getState auction (clock k).1 (clock k).2)
       (omap (λ auctionId, AuctionService.auctions svc !! auctionId)
             insertion_order).

(** [GET /items] *)
Definition get_items (svc : AuctionService.t) (insertion_order : list string)
    (clock : nat → Z * Z) (now : Z) : Routes.Response (list Auction.State) :=
  Routes.ok (getAllAuctions svc insertion_order clock) now.

(** The order [initializeSampleAuctions] sets its six keys in. *)
Definition sample_order (uuidv4 : nat → string) : list string :=
  uuidv4 <$> seq 0 6.

(** The identifiers drawn for the six items differ. *)
Definition distinct_ids (uuidv4 : nat → string) : Prop :=
  ∀ i j : nat, (i < 6)%nat → (j < 6)%nat → uuidv4 i = uuidv4 j → i = j.

End Listing.

(** ** What the constructor fixes for good *)

Module Identity.

(** Two states of one auction: the fields no method assigns agree. *)
Definition same (a a' : Auction.t) : Prop :=
  Auction.id a' = Auction.id a
  ∧ Auction.title a' = Auction.title a
  ∧ Auction.startingPrice a' = Auction.startingPrice a
  ∧ Auction.endTime a' = Auction.endTime a
  ∧ Auction.minBidIncrement a' = Auction.minBidIncrement a.

End Identity.

(** ** Who is sent what *)

Module Delivery.

Import SocketHandlers.

(** The payloads a socket is sent by a list of emissions, in order. *)
Definition received (socketId : string) (out : list Emission) : list ServerEvent :=
  event <$> filter (λ e, socketId ∈ recipients e) out.



(** The socket is in the room of the auction. *)
Definition subscribed (srv : Server) (socketId auctionId : string) : Prop :=
  socketId ∈ members (rooms srv) ("auction:" +:+ auctionId).

(** Every member of every room is a connected socket. *)
Definition rooms_connected (srv : Server) : Prop :=
  ∀ room socketId,
    socketId ∈ members (rooms srv) room → is_Some (sockets srv !! socketId).


End Delivery.

(** ** client/src/hooks/useCountdownTimer.js *)

Module CountdownTimer.

(** [calculateTimeRemaining()]: [getClientServerTime] is [None] when the
    hook was given no function; otherwise it maps the local clock to the
    client's idea of the server's time. *)
Definition calculateTimeRemaining (endTime : Z)
    (getClientServerTime : option (Z → Z)) (local_now : Z) : Z :=
  match getClientServerTime with
  | None => 0
  | Some get => Z.max 0 (endTime - get local_now)
  end.

(** [setIsExpired(remaining === 0)] *)
Definition isExpired (remaining : Z) : bool := remaining =? 0.

(** The first [n] characters of [padString] repeated for ever, [rest]
    being what is left of the current copy; nothing for an empty
    [padString]. *)
Fixpoint fill (n : nat) (rest padString : string) : string :=
  match n with
  | O => EmptyString
  | S n' =>
      match rest with
      | String c rest' => String c (fill n' rest' padString)
      | EmptyString =>
          match padString with
          | String c rest' => String c (fill n' rest' padString)
          | EmptyString => EmptyString
          end
      end
  end.

(** [s.padStart(targetLength, padString)] *)
Definition padStart (targetLength : nat) (padString : string) (s : string) : string :=
  fill (targetLength - String.length s) padString padString +:+ s.

Record Formatted := mkFormatted {
  minutes : string;
  seconds : string;
  milliseconds : string;
  totalSeconds : Z;
}.

(** [formatTime(ms)]: [Math.floor(x / y)] is [Z.div], [x % y] is
    [Z.rem], [String(n)] is the decimal numeral. *)
Definition formatTime (ms : Z) : Formatted :=
  let totalSeconds := ms / 1000 in
  let minutes := totalSeconds / 60 in
  let seconds := Z.rem totalSeconds 60 in
  let milliseconds := Z.rem ms 1000 / 10 in
  {| minutes := padStart 2 "0" (pretty minutes);
     seconds := padStart 2 "0" (pretty seconds);
     milliseconds := padStart 2 "0" (pretty milliseconds);
     totalSeconds := totalSeconds |}.

(** The numbers [formatTime] prints: minutes, seconds, hundredths. *)
Definition clock_face (ms : Z) : Z * Z * Z :=
  (ms / 1000 / 60, Z.rem (ms / 1000) 60, Z.rem ms 1000 / 10).

End CountdownTimer.

(** ** client/src/components/Dashboard.js over AuctionContext.js

    The state kept by the provider and the handlers the dashboard
    registers on its socket.  State updates are applied in the order they
    are requested. *)

Module Client.

(** An auction as the client holds it: the snapshot received as JSON,
    with [currentBid] and [highestBidder] overwritten by what a
    [BID_UPDATE] carried (a field that was absent reads [undefined]). *)
Record Item := mkItem {
  i_id : string;
  i_title : string;
  i_startingPrice : Z;
  i_currentBid : option Z;
  i_highestBidder : option (option string);
  i_endTime : Z;
  i_timeRemaining : Z;
  i_isActive : bool;
  i_minBidIncrement : Z;
}.

Definition of_state (s : Auction.State) : Item :=
  {| i_id := Auction.s_id s;
     i_title := Auction.s_title s;
     i_startingPrice := Auction.s_startingPrice s;
     i_currentBid := Some (Auction.s_currentBid s);
     i_highestBidder := Some (Auction.s_highestBidder s);
     i_endTime := Auction.s_endTime s;
     i_timeRemaining := Auction.s_timeRemaining s;
     i_isActive := Auction.s_isActive s;
     i_minBidIncrement := Auction.s_minBidIncrement s |}.

Record t := mk {
  userId : string;
  auctions : list Item;
  userBids : gmap string bool;
  time : AuctionContext.t;
}.

(** [updateUserBid(auctionId, isWinning)] *)
Definition updateUserBid (c : t) (auctionId : string) (isWinning : bool) : t :=
  {| userId := userId c; auctions := auctions c;
     userBids := <[auctionId := isWinning]> (userBids c); time := time c |}.

Definition set_auctions (c : t) (items : list Item) : t :=
  {| userId := userId c; auctions := items;
     userBids := userBids c; time := time c |}.

(** [syncServerTime(newServerTime)] read at local time [now]. *)
Definition syncServerTime (c : t) (newServerTime now : Z) : t :=
  {| userId := userId c; auctions := auctions c; userBids := userBids c;
     time := AuctionContext.syncServerTime (time c) newServerTime now |}.

(** [{ ...auction, currentBid: newBid, highestBidder }] *)
Definition with_bid (auction : Item) (newBid : option Z)
    (highestBidder : option (option string)) : Item :=
  {| i_id := i_id auction; i_title := i_title auction;
     i_startingPrice := i_startingPrice auction;
     i_currentBid := newBid; i_highestBidder := highestBidder;
     i_endTime := i_endTime auction;
     i_timeRemaining := i_timeRemaining auction;
     i_isActive := i_isActive auction;
     i_minBidIncrement := i_minBidIncrement auction |}.

Definition handleBidUpdate (c : t) (auctionId : string) (newBid : option Z)
    (highestBidder : option (option string)) : t :=
  let c1 :=
    set_auctions c
      ((λ auction,
          if String.eqb (i_id auction) auctionId
          then with_bid auction newBid highestBidder
          else auction) <$> auctions c) in
  if bool_decide (highestBidder = Some (Some (userId c)))
  then updateUserBid c1 auctionId true
  else c1.

Definition handleOutbid (c : t) (auctionId : string) : t :=
  updateUserBid c auctionId false.

(** [handleAuctionState]: with [auction: null] the updater reads
    [auction.id] for every item it maps over and throws ([None]) unless
    the list is empty. *)
Definition handleAuctionState (c : t) (auction : option Auction.State)
    (serverTime now : Z) : option t :=
  let c1 := syncServerTime c serverTime now in
  match auction with
  | Some st =>
      Some (set_auctions c1
              ((λ a, if String.eqb (i_id a) (Auction.s_id st)
                     then of_state st else a) <$> auctions c1))
  | None =>
      match auctions c1 with
      | [] => Some c1
      | _ :: _ => None
      end
  end.

Definition handleHeartbeatAck (c : t) (serverTime now : Z) : t :=
  syncServerTime c serverTime now.

(** The handler [socketEventHandlers] holds for each payload; the two
    bid replies are only logged, and nothing is registered for
    [USER_JOINED] and [USER_LEFT]. *)
Definition on_event (c : t) (ev : SocketHandlers.ServerEvent) (now : Z) : option t :=
  match ev with
  | SocketHandlers.BID_UPDATE auctionId newBid highestBidder _ _ _ =>
      Some (handleBidUpdate c auctionId newBid highestBidder)
  | SocketHandlers.BID_ERROR _ _ _ _ _ => Some c
  | SocketHandlers.BID_SUCCESS _ _ _ => Some c
  | SocketHandlers.OUTBID auctionId _ _ _ => Some (handleOutbid c auctionId)
  | SocketHandlers.AUCTION_STATE auction serverTime =>
      handleAuctionState c auction serverTime now
  | SocketHandlers.HEARTBEAT_ACK serverTime _ =>
      Some (handleHeartbeatAck c serverTime now)
  | SocketHandlers.USER_JOINED _ _ => Some c
  | SocketHandlers.USER_LEFT _ _ => Some c
  end.

(** Payloads handled one after the other, each at its local time. *)
Fixpoint on_events (c : t) (evs : list (SocketHandlers.ServerEvent * Z)) : option t :=
  match evs with
  | [] => Some c
  | (ev, now) :: rest =>
      match on_event c ev now with
      | Some c1 => on_events c1 rest
      | None => None
      end
  end.

(** [isWinning={userBids[auction.id] || false}] *)
Definition isWinning (c : t) (auctionId : string) : bool :=
  default false (userBids c !! auctionId).

(** [getClientServerTime] as the provider hands it to the cards. *)
Definition getClientServerTime (c : t) : Z → Z :=
  AuctionContext.getClientServerTime (time c).


End Client.

(** ** client/src/components/AuctionCard.js *)

Module AuctionCard.




End AuctionCard.

(** ** The card's button wired to the socket

    The dashboard renders each card with [onBid={handleBid}]. *)

Module Page.


(** The client of bidder X in the scenario: it holds the auction as X's
    bid of 60 left it and has X marked as winning. *)
Definition client_of_X : Client.t :=
  {| Client.userId := "X";
     Client.auctions :=
       [ {| Client.i_id := "a1"; Client.i_title := "Vintage Camera";
            Client.i_startingPrice := 50; Client.i_currentBid := Some 60;
            Client.i_highestBidder := Some (Some "X");
            Client.i_endTime := 300000; Client.i_timeRemaining := 299000;
            Client.i_isActive := true; Client.i_minBidIncrement := 10 |} ];
     Client.userBids := {[ "a1" := true ]};
     Client.time := AuctionContext.initial 1000 |}.

End Page.

(** * Properties *)


(** ** The auction object *)

Section AuctionFacts.

Import Auction.

Lemma set_biddingLock_release a :
  biddingLock a = false → set_biddingLock false (set_biddingLock true a) = a.
Proof. destruct a; simpl; intros ->; reflexivity. Qed.

(** With the flag down at entry, [placeBid] has four ways out. *)
Lemma placeBid_unlocked a u amt t1 t2 t3 :
  biddingLock a = false →
  placeBid a u amt t1 t2 t3 =
    if negb (isActive a t1) then (ended, a)
    else if amt <? getMinimumNextBid a
    then (below_minimum (getMinimumNextBid a), a)
    else if negb (isActive a t2) then (ended, a)
    else (placed amt (currentBid a) (highestBidder a) u, commit a u amt t3).
Proof.
  intros Hlock. unfold placeBid, locked_section.
  destruct (negb (isActive a t1)); [reflexivity|].
  destruct (amt <? getMinimumNextBid a) eqn:Hlow; [reflexivity|].
  rewrite Hlock.
  change (isActive (set_biddingLock true a) t2) with (isActive a t2).
  change (getMinimumNextBid (set_biddingLock true a)) with (getMinimumNextBid a).
  rewrite Hlow.
  destruct (negb (isActive a t2)); simpl.
  - by rewrite set_biddingLock_release.
  - f_equal. destruct a; simpl in *; by subst.
Qed.

Lemma invariant_new id title startingPrice duration now :
  invariant (new id title startingPrice duration now).
Proof.
  split; simpl; try done.
  intros x Hx. by apply elem_of_nil in Hx.
Qed.

Lemma strictly_increasing_snoc (l : list Z) (x : Z) :
  strictly_increasing l → (∀ y, y ∈ l → y < x) → strictly_increasing (l ++ [x]).
Proof.
  intros Hl Hx i j y z Hi Hj Hij.
  apply lookup_app_Some in Hi. apply lookup_app_Some in Hj.
  destruct Hi as [Hi | [Hlen Hi]], Hj as [Hj | [Hlen' Hj]].
  - eauto.
  - apply list_lookup_singleton_Some in Hj as [_ <-].
    apply Hx. eapply list_elem_of_lookup_2; eauto.
  - apply lookup_lt_Some in Hj. lia.
  - apply list_lookup_singleton_Some in Hi as [Hi _].
    apply list_lookup_singleton_Some in Hj as [Hj _]. lia.
Qed.

Lemma invariant_commit a u amt now :
  invariant a → getMinimumNextBid a ≤ amt → invariant (commit a u amt now).
Proof.
  intros [Hlock Hinc Hfloor Hbound Hincr Hprice Hlead] Hmin.
  unfold getMinimumNextBid in Hmin. rewrite Hinc in Hmin.
  split; simpl; try done.
  - lia.
  - intros x. rewrite fmap_app, elem_of_app. simpl.
    intros [Hx | Hx%list_elem_of_singleton]; [apply Hbound in Hx|]; lia.
  - rewrite fmap_app. simpl. apply strictly_increasing_snoc; [done|].
    intros y Hy%Hbound. lia.
  - by rewrite last_snoc.
  - by rewrite last_snoc.
Qed.

(** One call keeps the invariant and lengthens the history by one
    exactly when it reports success. *)
Lemma invariant_call a c :
  invariant a →
  invariant (call a c).2 ∧
  length (bidHistory (call a c).2)
    = (length (bidHistory a) + (if success (call a c).1 then 1 else 0))%nat.
Proof.
  intros Hinv. unfold call.
  rewrite placeBid_unlocked by apply Hinv.
  destruct (negb (isActive a (c_entry c))); simpl; [split; [done | lia]|].
  destruct (c_amount c <? getMinimumNextBid a) eqn:Hlow; simpl; [split; [done | lia]|].
  destruct (negb (isActive a (c_locked c))); simpl; [split; [done | lia]|].
  split.
  - apply invariant_commit; [done|]. by apply Z.ltb_ge.
  - rewrite length_app. simpl. lia.
Qed.

Lemma reachable_invariant a : reachable a → invariant a.
Proof.
  induction 1 as [| a c _ IH]; [apply invariant_new|].
  by apply invariant_call.
Qed.




Lemma run_reachable cs : ∀ a, reachable a → reachable (run a cs).2.
Proof.
  induction cs as [| c cs IH]; intros a Ha; simpl; [done|].
  pose proof (reachable_placeBid a c Ha) as H1.
  destruct (call a c) as [r a1]. simpl in *.
  specialize (IH a1 H1). by destruct (run a1 cs).
Qed.


Lemma reason_ended :
  Reading.result ended = DesignSpec.rejected DesignSpec.AUCTION_CLOSED.
Proof. reflexivity. Qed.


Lemma placeBid_closed a u amt t1 t2 t3 :
  endTime a ≤ t1 → placeBid a u amt t1 t2 t3 = (ended, a).
Proof.
  intros Hend. unfold placeBid, isActive.
  by rewrite (proj2 (Z.ltb_ge t1 (endTime a)) Hend).
Qed.



(** A successful call went through the accepting branch. *)
Lemma placeBid_success a u amt t1 t2 t3 :
  success (placeBid a u amt t1 t2 t3).1 = true →
  placeBid a u amt t1 t2 t3
    = (placed amt (currentBid a) (highestBidder a) u,
       set_biddingLock false (commit a u amt t3)).
Proof.
  unfold placeBid, locked_section.
  change (isActive (set_biddingLock true a) t2) with (isActive a t2).
  change (getMinimumNextBid (set_biddingLock true a)) with (getMinimumNextBid a).
  repeat (case_match; simplify_eq; simpl; try done).
Qed.

(** C2.  A [placeBid] whose clock reads [now] with [endTime <= now], the
    instant [endTime] itself included, returns the "Auction has ended"
    result (the document's AUCTION_CLOSED) and leaves the auction as it
    was; and whatever calls follow, each starting at [now] or later, all
    get that result and the auction never changes again.  [placeBid] is
    the only method that assigns a field. *)
Theorem closed_auction_is_terminal a now :
  endTime a ≤ now →
  (∀ u amt t2 t3, placeBid a u amt now t2 t3 = (ended, a))
  ∧ Reading.result ended = DesignSpec.rejected DesignSpec.AUCTION_CLOSED
  ∧ (∀ cs, Forall (λ c, now ≤ c_entry c) cs →
       run a cs = (replicate (length cs) ended, a)).
Proof.
  intros Hend. split; [|split; [reflexivity|]].
  - intros. by apply placeBid_closed.
  - induction 1 as [| c cs Hc _ IH]; simpl; [done|].
    unfold call. rewrite placeBid_closed by lia. by rewrite IH.
Qed.

Lemma closed_auction_is_terminal_witness :
  endTime (new "a1" "Vintage Camera" 50 300000 0) ≤ 300000
  ∧ placeBid (new "a1" "Vintage Camera" 50 300000 0) "Z" 70 300000 300000 300000
      = (ended, new "a1" "Vintage Camera" 50 300000 0).
Proof.
  split; [simpl; lia|].
  apply (closed_auction_is_terminal (new "a1" "Vintage Camera" 50 300000 0) 300000).
  simpl; lia.
Defined.



(** C9 as worded fails after the deadline: one millisecond past
    [endTime] the snapshot says 0 where [endTime - now] is -1. *)
Lemma timeRemaining_is_clamped :
  let a := new "a1" "Vintage Camera" 50 300000 0 in
  s_timeRemaining (getState a 300001 300001) = 0
  ∧ endTime a - 300001 = -1.
Proof. split; reflexivity. Qed.

(** C9, amended.  [getState()] returns a new object and assigns no field
    of the auction (it is a function of the auction and the clock).  The
    snapshot holds the auction's [id], [title], [startingPrice],
    [currentBid], [highestBidder], [endTime] and [minBidIncrement];
    [timeRemaining] is [endTime - now] while [now <= endTime] and 0
    afterwards, that is [max 0 (endTime - now)]; [isActive] is
    [now < endTime]. *)
Theorem getState_snapshot a now_remaining now_active :
  let s := getState a now_remaining now_active in
  s_id s = id a
  ∧ s_title s = title a
  ∧ s_startingPrice s = startingPrice a
  ∧ s_currentBid s = currentBid a
  ∧ s_highestBidder s = highestBidder a
  ∧ s_endTime s = endTime a
  ∧ s_minBidIncrement s = minBidIncrement a
  ∧ s_timeRemaining s = Z.max 0 (endTime a - now_remaining)
  ∧ s_timeRemaining s
      = (if bool_decide (now_remaining ≤ endTime a)
         then endTime a - now_remaining else 0)
  ∧ 0 ≤ s_timeRemaining s
  ∧ s_isActive s = bool_decide (now_active < endTime a).
Proof.
  simpl. unfold getTimeRemaining, isActive.
  repeat split; try done.
  - case_bool_decide; lia.
  - lia.
  - case_bool_decide as H.
    + by apply Z.ltb_lt.
    + by apply Z.ltb_ge, Z.nlt_ge.
Qed.

(** When the clock passes [endTime] between the two [isActive()] tests,
    the test inside the [try] block is the one that turns the bid down. *)
Remark clock_crossing_endTime :
  let a := new "a1" "Vintage Camera" 50 300000 0 in
  isActive a 299999 = true
  ∧ placeBid a "X" 60 299999 300000 300000 = (ended, a).
Proof. split; reflexivity. Qed.




End AuctionFacts.

(** ** The service and the lookup routes *)

Section ServiceFacts.

Import AuctionService.

Lemma placeBid_not_found svc auctionId userId v t1 t2 t3 :
  auctions svc !! auctionId = None →
  placeBid svc auctionId userId v t1 t2 t3 = (not_found, svc).
Proof. intros H. unfold placeBid. by rewrite H. Qed.


Lemma placeBid_other svc auctionId userId v t1 t2 t3 other :
  other ≠ auctionId →
  auctions (placeBid svc auctionId userId v t1 t2 t3).2 !! other
    = auctions svc !! other.
Proof.
  intros Hne. unfold placeBid.
  destruct (auctions svc !! auctionId) as [a|]; [|done].
  case_match; [done|].
  destruct (Auction.placeBid _ _ _ _ _ _). simpl.
  by rewrite lookup_insert_ne.
Qed.

(** C7: the route as the source has it.  For an id the registry does not
    hold, [getBidHistory] answers the empty array, which is not [null],
    so the route answers 200 with [success: true] and [data: []]; the
    404 branch of the route is never taken.  ([GET /items/:auctionId]
    answers 404 for the same id.) *)
Theorem bid_history_of_unknown_id svc auctionId now :
  auctions svc !! auctionId = None →
  getBidHistory svc auctionId = Some []
  ∧ Routes.get_bid_history svc auctionId now = Routes.ok [] now
  ∧ Routes.status (Routes.get_bid_history svc auctionId now) = 200
  ∧ (∀ t1 t2, Routes.get_item svc auctionId t1 t2 now = Routes.auction_not_found).
Proof.
  intros H. unfold Routes.get_bid_history, Routes.get_item, getBidHistory, getAuction.
  by rewrite H.
Qed.

Lemma bid_history_of_unknown_id_witness :
  auctions Scenario.one_auction !! "no-such-auction" = None
  ∧ Routes.get_bid_history Scenario.one_auction "no-such-auction" 1
      = Routes.mkResponse 200 true None (Some []) (Some 1).
Proof.
  split; [reflexivity|].
  apply (bid_history_of_unknown_id Scenario.one_auction "no-such-auction" 1).
  reflexivity.
Defined.

(** Whatever the id, the bid-history route never answers 404. *)
Lemma bid_history_never_404 svc auctionId now :
  Routes.status (Routes.get_bid_history svc auctionId now) = 200.
Proof.
  unfold Routes.get_bid_history, getBidHistory.
  by destruct (auctions svc !! auctionId).
Qed.

(** C8 as worded fails: a bid of 60 with the empty string as bidder on a
    fresh auction at 50 is accepted and recorded. *)
Lemma empty_bidder_is_accepted :
  let out := placeBid Scenario.one_auction "a1" "" (JsNumber 60) 1 1 1 in
  Auction.success (bid out.1) = true
  ∧ statusCode out.1 = 200
  ∧ Auction.currentBid <$> (auctions out.2 !! "a1") = Some 60
  ∧ Auction.highestBidder <$> (auctions out.2 !! "a1") = Some (Some "").
Proof. vm_compute. repeat split. Qed.

(** C8, amended.  On a registered auction, a bid whose amount is not a
    number, or is a number that is zero or negative, gets the "Invalid
    bid amount" result (the document's INVALID_INPUT) with status 400,
    and the registry is left as it was.  The bidder is not looked at by
    this test. *)
Theorem invalid_amount_rejected svc auctionId a userId v t1 t2 t3 :
  auctions svc !! auctionId = Some a →
  typeof v ≠ "number" ∨ number_of v ≤ 0 →
  placeBid svc auctionId userId v t1 t2 t3 = (invalid_amount, svc)
  ∧ Auction.success (bid invalid_amount) = false
  ∧ statusCode invalid_amount = 400
  ∧ Reading.reason_of_message (Auction.message (bid invalid_amount))
      = Some DesignSpec.INVALID_INPUT.
Proof.
  intros H Hbad. split; [|done].
  unfold placeBid. rewrite H.
  destruct Hbad as [Hty | Hle].
  - apply String.eqb_neq in Hty. by rewrite Hty.
  - rewrite (proj2 (Z.leb_le _ _) Hle). by rewrite orb_true_r.
Qed.

Lemma invalid_amount_rejected_witness :
  auctions Scenario.one_auction !! "a1" = Some (Auction.new "a1" "Vintage Camera" 50 300000 0)
  ∧ (typeof (JsString "60") ≠ "number" ∨ number_of (JsString "60") ≤ 0)
  ∧ placeBid Scenario.one_auction "a1" "X" (JsString "60") 1 1 1
      = (invalid_amount, Scenario.one_auction).
Proof.
  split; [reflexivity|]. split; [left; discriminate|].
  apply (invalid_amount_rejected Scenario.one_auction "a1"
           (Auction.new "a1" "Vintage Camera" 50 300000 0) "X" (JsString "60") 1 1 1).
  - reflexivity.
  - left; discriminate.
Defined.

(** The registry built at start holds fresh auctions of five minutes,
    one per sample item, under the identifiers drawn for them. *)
Lemma sample_auctions_fresh uuidv4 now auctionId a :
  auctions (initializeSampleAuctions uuidv4 now) !! auctionId = Some a →
  ∃ k title startingPrice,
    sampleItems !! k = Some (title, startingPrice)
    ∧ auctionId = uuidv4 k
    ∧ a = Auction.new auctionId title startingPrice 300000 (now k).
Proof.
  unfold initializeSampleAuctions, sampleItems. simpl.
  intros H.
  repeat (apply lookup_insert_Some in H as [[<- <-] | [_ H]];
          [eexists _, _, _; split; [| split; reflexivity]; reflexivity |]).
  by rewrite lookup_empty in H.
Qed.

Lemma initial_registry_ok uuidv4 now :
  registry_ok (initializeSampleAuctions uuidv4 now).
Proof.
  intros auctionId a (k & title & sp & _ & _ & ->)%sample_auctions_fresh.
  apply Auction.reachable_new.
Qed.

Lemma placeBid_registry_ok svc auctionId userId v t1 t2 t3 :
  registry_ok svc → registry_ok (placeBid svc auctionId userId v t1 t2 t3).2.
Proof.
  intros Hok. unfold placeBid.
  destruct (auctions svc !! auctionId) as [a|] eqn:Ha; [|done].
  case_match; [done|].
  pose proof (Auction.reachable_placeBid a
                (Auction.mkCall userId (number_of v) t1 t2 t3) (Hok _ _ Ha)) as Hr.
  unfold Auction.call in Hr. simpl in Hr.
  destruct (Auction.placeBid a userId (number_of v) t1 t2 t3) as [r a']. simpl in *.
  intros other b Hb. simpl in Hb.
  apply lookup_insert_Some in Hb as [[<- <-] | [_ Hb]]; [done | eauto].
Qed.

(** X3.  A bid on one auction leaves every other auction of the registry
    as it was, whatever the bid and its outcome. *)
Theorem bids_do_not_cross_auctions svc auctionId userId v t1 t2 t3 other a :
  other ≠ auctionId →
  auctions svc !! other = Some a →
  auctions (placeBid svc auctionId userId v t1 t2 t3).2 !! other = Some a.
Proof.
  intros Hne Ha. unfold placeBid.
  destruct (auctions svc !! auctionId) as [bidOn|]; [|done].
  destruct (negb (String.eqb (typeof v) "number") || (number_of v <=? 0));
    [done|].
  destruct (Auction.placeBid bidOn userId (number_of v) t1 t2 t3) as [r bidOn'].
  simpl. rewrite lookup_insert_ne; [done | congruence].
Qed.

Lemma bids_do_not_cross_auctions_witness :
  "a2" ≠ "a1"
  ∧ auctions (placeBid
                {| auctions :=
                     <["a2" := Auction.new "a2" "Antique Watch" 100 300000 0]>
                       (auctions Scenario.one_auction) |}
                "a1" "X" (JsNumber 60) 1 1 1).2 !! "a2"
    = Some (Auction.new "a2" "Antique Watch" 100 300000 0).
Proof.
  split; [discriminate|].
  apply bids_do_not_cross_auctions; [discriminate | reflexivity].
Defined.

(** Bids on one auction leave the others alone; a closed auction is
    left alone by bids on itself as well. *)
Lemma placeBid_closed_registry svc auctionId a other userId v t1 t2 t3 :
  auctions svc !! auctionId = Some a →
  Auction.endTime a ≤ t1 →
  auctions (placeBid svc other userId v t1 t2 t3).2 !! auctionId = Some a.
Proof.
  intros Ha Hend.
  destruct (decide (auctionId = other)) as [<- | Hne];
    [|by rewrite placeBid_other].
  unfold placeBid. rewrite Ha.
  case_match; [done|].
  rewrite placeBid_closed by done. simpl. by rewrite lookup_insert_eq.
Qed.

End ServiceFacts.

(** ** The socket handlers *)

Section SocketFacts.

Import SocketHandlers.

Lemma members_join socketId room rooms room' :
  members (join socketId room rooms) room'
    = if decide (room = room') then {[socketId]} ∪ members rooms room
      else members rooms room'.
Proof.
  unfold members at 1, join. rewrite lookup_insert.
  by case_decide.
Qed.

Lemma members_leave socketId room rooms room' :
  members (leave socketId room rooms) room'
    = if decide (room = room') then members rooms room ∖ {[socketId]}
      else members rooms room'.
Proof.
  unfold members at 1, leave. rewrite lookup_insert.
  by case_decide.
Qed.

Lemma members_disconnect socketId (rooms : gmap string (gset string)) room :
  members ((λ r, r ∖ {[socketId]}) <$> rooms) room
    = members rooms room ∖ {[socketId]}.
Proof.
  unfold members. rewrite lookup_fmap.
  destruct (rooms !! room); simpl; [done|].
  by rewrite empty_difference_L.
Qed.

Lemma user_room_is_no_socket_id previous :
  socket_id ("user:" +:+ previous) = false.
Proof. reflexivity. Qed.

Lemma user_room_is_no_auction_room previous auctionId :
  "auction:" +:+ auctionId ≠ "user:" +:+ previous.
Proof. discriminate. Qed.

Lemma step_no_user_room srv i : ∀ previous,
  well_formed i →
  members (rooms srv) ("user:" +:+ previous) = ∅ →
  members (rooms (step srv i).1) ("user:" +:+ previous) = ∅.
Proof.
  intros previous Hwf Hnone.
  destruct i as [socketId q | socketId ev clock | socketId]; simpl.
  - rewrite members_join. case_decide as Heq; [|done].
    simpl in Hwf. rewrite Heq, user_room_is_no_socket_id in Hwf. done.
  - destruct (sockets srv !! socketId) as [userId|]; [|done].
    destruct ev as [auctionId | auctionId | auctionId amount | d | auctionId]; simpl.
    + unfold on_JOIN_AUCTION.
      assert (members (join socketId ("auction:" +:+ auctionId) (rooms srv))
                ("user:" +:+ previous) = ∅) as H.
      { rewrite members_join. case_decide as Heq; [|done].
        by apply user_room_is_no_auction_room in Heq. }
      by destruct (AuctionService.getAuction _ _ _ _).
    + rewrite members_leave. case_decide as Heq; [|done].
      by apply user_room_is_no_auction_room in Heq.
    + unfold on_BID_PLACED.
      destruct (AuctionService.placeBid _ _ _ _ _ _ _) as [result svc1].
      by destruct (Auction.success _).
    + done.
    + done.
  - rewrite members_disconnect, Hnone. apply empty_difference_L.
Qed.

Lemma run_no_user_room inputs : ∀ srv,
  Forall well_formed inputs →
  no_user_room (rooms srv) →
  no_user_room (rooms (run srv inputs).1).
Proof.
  induction inputs as [| i rest IH]; intros srv Hwf Hnone; simpl; [done|].
  inversion Hwf as [| ? ? Hi Hrest]; subst.
  assert (no_user_room (rooms (step srv i).1)) as H1.
  { intros previous. by apply step_no_user_room. }
  destruct (step srv i) as [srv1 out1]. simpl in H1.
  specialize (IH srv1 Hrest H1).
  by destruct (run srv1 rest).
Qed.

Lemma reachable_no_user_room srv : reachable srv → no_user_room (rooms srv).
Proof.
  intros (svc & inputs & Hwf & ->).
  apply run_no_user_room; [done|].
  intros previous. reflexivity.
Qed.

(** Emissions that are written out and hold no [OUTBID]. *)
Local Ltac no_outbid := unfold outbid_recipients; simpl; set_solver.

(** C5: what the source does with [OUTBID].  It is emitted to the room
    [user:<previous bidder>]; the handlers put sockets into [auction:...]
    rooms only and socket.io into the room of the socket's own id, so in
    every state the server can reach that room is empty: no input makes
    the server send [OUTBID] to any socket. *)
Theorem outbid_reaches_nobody srv i :
  reachable srv → outbid_recipients (step srv i).2 = ∅.
Proof.
  intros Hreach. apply reachable_no_user_room in Hreach.
  destruct i as [socketId q | socketId ev clock | socketId]; [done | | done].
  simpl. destruct (sockets srv !! socketId) as [userId|]; [|done].
  destruct ev as [auctionId | auctionId | auctionId amount | d | auctionId].
  - unfold on_JOIN_AUCTION.
    destruct (AuctionService.getAuction _ _ _ _); [no_outbid | done].
  - no_outbid.
  - unfold on_BID_PLACED.
    destruct (AuctionService.placeBid _ _ _ _ _ _ _) as [result svc1].
    destruct (Auction.success _); [|no_outbid].
    destruct (outbid_previous _ _) as [previous|]; [|no_outbid].
    unfold outbid_recipients. simpl. rewrite (Hreach previous). set_solver.
  - no_outbid.
  - no_outbid.
Qed.

Lemma X_leads_reachable :
  reachable (run (start Scenario.one_auction) Scenario.X_leads).1.
Proof.
  exists Scenario.one_auction, Scenario.X_leads. split; [|done].
  unfold Scenario.X_leads. repeat constructor.
Qed.

(** The scenario of the document: X leads at 60 and is subscribed, Y
    bids 70 and is accepted.  The room gets [BID_UPDATE], Y gets
    [BID_SUCCESS], and the [OUTBID] addressed to [user:X] has no
    receiver: X's socket is sent nothing about being outbid. *)
Lemma outbid_reaches_nobody_witness :
  let srv := (run (start Scenario.one_auction) Scenario.X_leads).1 in
  let out := (step srv Scenario.Y_bids_70).2 in
  members (rooms srv) "auction:a1" = {[ "sX"; "sY" ]}
  ∧ Auction.highestBidder
      <$> (AuctionService.auctions (service srv) !! "a1") = Some (Some "X")
  ∧ out
      = [mkEmission (ToRoom "auction:a1") {[ "sX"; "sY" ]}
           (BID_UPDATE "a1" (Some 70) (Some (Some "Y")) (Some (Some "X"))
              (Some 60) 1000);
         mkEmission (ToSocket "sY") {[ "sY" ]}
           (BID_SUCCESS "a1" "Your bid was accepted!" (Some 70));
         mkEmission (ToRoom "user:X") ∅ (OUTBID "a1" (Some 70) "Y" 1000)]
  ∧ outbid_recipients out = ∅.
Proof.
  intros srv out.
  split; [vm_compute; reflexivity|].
  split; [vm_compute; reflexivity|].
  split; [vm_compute; reflexivity|].
  exact (outbid_reaches_nobody srv Scenario.Y_bids_70 X_leads_reachable).
Defined.

Lemma run_cons srv i rest :
  run srv (i :: rest)
    = ((run (step srv i).1 rest).1, (step srv i).2 ++ (run (step srv i).1 rest).2).
Proof.
  simpl. destruct (step srv i) as [srv1 out1]. simpl.
  by destruct (run srv1 rest).
Qed.

(** A heartbeat leaves the server, its auctions included, as it was. *)
Lemma step_heartbeat srv socketId clientData clock :
  (step srv (Message socketId (HEARTBEAT clientData) clock)).1 = srv.
Proof. simpl. by destruct (sockets srv !! socketId). Qed.

Lemma step_heartbeat_variant srv i1 i2 :
  heartbeat_variant i1 i2 →
  (step srv i1).1 = (step srv i2).1
  ∧ placeBid_result srv i1 = placeBid_result srv i2
  ∧ without_clientTime <$> (step srv i1).2 = without_clientTime <$> (step srv i2).2.
Proof.
  destruct 1 as [i | socketId d1 d2 clock]; [done|].
  rewrite !step_heartbeat. split; [done|]. split; [done|].
  simpl. by destruct (sockets srv !! socketId).
Qed.

(** C6.  Two runs of the server from the same state whose inputs differ
    only in the [clientTime] carried by heartbeats end in the same
    server state, registry of auctions included; every [placeBid] call
    returns the same result in both; and the emissions are the same up
    to the [clientTime] echoed in [HEARTBEAT_ACK].  A heartbeat changes
    nothing on the server.  On the client, the offset kept after an ack
    is [serverTime - now], whatever the offset was before. *)
Theorem heartbeat_noninterference tr1 tr2 :
  Forall2 heartbeat_variant tr1 tr2 →
  ∀ srv,
    (run srv tr1).1 = (run srv tr2).1
    ∧ placeBid_results srv tr1 = placeBid_results srv tr2
    ∧ without_clientTime <$> (run srv tr1).2 = without_clientTime <$> (run srv tr2).2
    ∧ (∀ socketId clientData clock,
         (step srv (Message socketId (HEARTBEAT clientData) clock)).1 = srv)
    ∧ (∀ c1 c2 serverTime now,
         AuctionContext.syncServerTime c1 serverTime now
           = AuctionContext.syncServerTime c2 serverTime now
         ∧ AuctionContext.timeOffset
             (AuctionContext.syncServerTime c1 serverTime now)
           = serverTime - now).
Proof.
  induction 1 as [| i1 i2 tr1 tr2 Hi _ IH]; intros srv.
  - repeat split. apply step_heartbeat.
  - destruct (step_heartbeat_variant srv i1 i2 Hi) as (Hs & Hr & Ho).
    destruct (IH (step srv i1).1) as (IHs & IHr & IHo & _).
    rewrite !run_cons. simpl.
    rewrite !fmap_app, Ho, Hr, <- Hs, IHs, IHr, IHo.
    repeat split. apply step_heartbeat.
Qed.

Lemma heartbeat_noninterference_witness :
  Forall2 heartbeat_variant (Scenario.session 5) (Scenario.session 999999)
  ∧ placeBid_results (start Scenario.one_auction) (Scenario.session 5)
      = placeBid_results (start Scenario.one_auction) (Scenario.session 999999)
  ∧ (run (start Scenario.one_auction) (Scenario.session 5)).1
      = (run (start Scenario.one_auction) (Scenario.session 999999)).1.
Proof.
  assert (Forall2 heartbeat_variant (Scenario.session 5) (Scenario.session 999999))
    as H by (unfold Scenario.session; repeat constructor).
  split; [exact H|].
  destruct (heartbeat_noninterference _ _ H (start Scenario.one_auction))
    as (H1 & H2 & _).
  split; [exact H2 | exact H1].
Defined.




Lemma step_registry_ok srv i :
  AuctionService.registry_ok (service srv) →
  AuctionService.registry_ok (service (step srv i).1).
Proof.
  intros Hok.
  destruct i as [socketId q | socketId ev clock | socketId]; [done | | done].
  simpl. destruct (sockets srv !! socketId) as [userId|]; [|done].
  destruct ev as [auctionId | auctionId | auctionId amount | d | auctionId];
    [|done| |done|done].
  - unfold on_JOIN_AUCTION. by destruct (AuctionService.getAuction _ _ _ _).
  - unfold on_BID_PLACED.
    pose proof (placeBid_registry_ok (service srv) auctionId userId amount
                  (clock 0%nat) (clock 1%nat) (clock 2%nat) Hok) as H1.
    destruct (AuctionService.placeBid _ _ _ _ _ _ _) as [result svc1].
    by destruct (Auction.success _).
Qed.

Lemma run_registry_ok inputs : ∀ srv,
  AuctionService.registry_ok (service srv) →
  AuctionService.registry_ok (service (run srv inputs).1).
Proof.
  induction inputs as [| i rest IH]; intros srv Hok; [done|].
  rewrite run_cons. simpl. by apply IH, step_registry_ok.
Qed.



Lemma step_closed_auction srv auctionId a i :
  AuctionService.auctions (service srv) !! auctionId = Some a →
  reads_from (Auction.endTime a) i →
  AuctionService.auctions (service (step srv i).1) !! auctionId = Some a.
Proof.
  intros Ha Hi.
  destruct i as [socketId q | socketId ev clock | socketId]; [done | | done].
  simpl in *. destruct (sockets srv !! socketId) as [userId|]; [|done].
  destruct ev as [id' | id' | id' amount | d | id']; [|done| |done|done].
  - unfold on_JOIN_AUCTION. by destruct (AuctionService.getAuction _ _ _ _).
  - unfold on_BID_PLACED.
    pose proof (placeBid_closed_registry (service srv) auctionId a id' userId
                  amount (clock 0%nat) (clock 1%nat) (clock 2%nat) Ha (Hi 0%nat)) as H1.
    destruct (AuctionService.placeBid _ _ _ _ _ _ _) as [result svc1].
    by destruct (Auction.success _).
Qed.

(** X2.  Once the server's clock has reached an auction's [endTime], no
    input changes that auction in the registry any more. *)
Theorem closed_auction_ignores_inputs inputs : ∀ srv auctionId a,
  AuctionService.auctions (service srv) !! auctionId = Some a →
  Forall (reads_from (Auction.endTime a)) inputs →
  AuctionService.auctions (service (run srv inputs).1) !! auctionId = Some a.
Proof.
  induction inputs as [| i rest IH]; intros srv auctionId a Ha Hall; [done|].
  inversion Hall as [| ? ? Hi Hrest]; subst.
  rewrite run_cons. simpl. apply IH; [|done].
  by apply step_closed_auction.
Qed.

Lemma closed_auction_ignores_inputs_witness :
  let late : Clock := λ _, 300000 in
  let a := Auction.new "a1" "Vintage Camera" 50 300000 0 in
  AuctionService.auctions
    (service (run (start Scenario.one_auction)
                [Connection "sZ" (Some "Z");
                 Message "sZ" (BID_PLACED "a1" (JsNumber 70)) late]).1) !! "a1"
    = Some a.
Proof.
  intros late a.
  apply (closed_auction_ignores_inputs _ (start Scenario.one_auction) "a1" a).
  - reflexivity.
  - repeat constructor; simpl; intros; unfold late; lia.
Defined.

End SocketFacts.

(** ** More on the auction object *)

Section MoreAuctionFacts.

Import Auction.






Lemma same_identity_refl a : Identity.same a a.
Proof. by repeat split. Qed.

Lemma same_identity_trans a b c :
  Identity.same a b → Identity.same b c → Identity.same a c.
Proof.
  intros (?&?&?&?&?) (?&?&?&?&?). repeat split; congruence.
Qed.

Lemma placeBid_same_identity a u amt t1 t2 t3 :
  Identity.same a (placeBid a u amt t1 t2 t3).2.
Proof.
  unfold placeBid, locked_section.
  change (isActive (set_biddingLock true a) t2) with (isActive a t2).
  change (getMinimumNextBid (set_biddingLock true a)) with (getMinimumNextBid a).
  destruct (negb (isActive a t1)); [apply same_identity_refl|].
  destruct (amt <? getMinimumNextBid a); [apply same_identity_refl|].
  destruct (biddingLock a); [apply same_identity_refl|].
  destruct (negb (isActive a t2)); by repeat split.
Qed.

End MoreAuctionFacts.

(** ** More on the service *)

Section MoreServiceFacts.

Import AuctionService.

(** A value that passes the amount test is a positive number. *)
Lemma valid_amount_is_number v :
  negb (String.eqb (typeof v) "number") || (number_of v <=? 0) = false →
  ∃ n, v = JsNumber n ∧ 0 < n.
Proof.
  destruct v as [| | b | n | s |]; simpl; try discriminate.
  intros H%Z.leb_gt. eauto.
Qed.




(** X7.  The status code tells the outcome: 200 exactly for an accepted
    bid, 404 exactly for an id the registry does not hold, and 400 in
    every other case. *)
Theorem statusCode_tells_outcome svc auctionId userId v t1 t2 t3 :
  let r := (placeBid svc auctionId userId v t1 t2 t3).1 in
  (statusCode r = 200 ↔ Auction.success (bid r) = true)
  ∧ (statusCode r = 404 ↔ auctions svc !! auctionId = None)
  ∧ (statusCode r = 200 ∨ statusCode r = 400 ∨ statusCode r = 404).
Proof.
  unfold placeBid.
  destruct (auctions svc !! auctionId) as [a|].
  - destruct (negb (String.eqb (typeof v) "number") || (number_of v <=? 0)).
    + simpl. repeat split; intros; try done. by right; left.
    + destruct (Auction.placeBid a userId (number_of v) t1 t2 t3) as [r a'].
      simpl. destruct (Auction.success r); repeat split; intros; try done.
      * by left.
      * by right; left.
  - simpl. repeat split; intros; try done. by right; right.
Qed.

Lemma placeBid_service_identity svc auctionId userId v t1 t2 t3 other :
  option_Forall2 Identity.same
    (auctions svc !! other)
    (auctions (placeBid svc auctionId userId v t1 t2 t3).2 !! other).
Proof.
  destruct (decide (other = auctionId)) as [-> | Hne].
  - unfold placeBid.
    destruct (auctions svc !! auctionId) as [a|] eqn:Ha;
      [|simpl; rewrite Ha; constructor].
    destruct (negb (String.eqb (typeof v) "number") || (number_of v <=? 0)).
    { simpl. rewrite Ha. constructor. apply same_identity_refl. }
    pose proof (placeBid_same_identity a userId (number_of v) t1 t2 t3) as Hid.
    destruct (Auction.placeBid _ _ _ _ _ _) as [r a']. simpl in *.
    rewrite lookup_insert_eq. by constructor.
  - rewrite placeBid_other by done.
    destruct (auctions svc !! other); constructor. apply same_identity_refl.
Qed.

End MoreServiceFacts.

(** ** More on the socket handlers *)

Section MoreSocketFacts.

Import SocketHandlers Delivery.

Lemma step_identity srv i auctionId :
  option_Forall2 Identity.same
    (AuctionService.auctions (service srv) !! auctionId)
    (AuctionService.auctions (service (step srv i).1) !! auctionId).
Proof.
  assert (option_Forall2 Identity.same
            (AuctionService.auctions (service srv) !! auctionId)
            (AuctionService.auctions (service srv) !! auctionId)) as Hrefl.
  { destruct (_ !! _); constructor. apply same_identity_refl. }
  destruct i as [socketId q | socketId ev clock | socketId]; [done | | done].
  simpl. destruct (sockets srv !! socketId) as [userId|]; [|done].
  destruct ev as [id' | id' | id' amount | d | id']; [|done| |done|done].
  - unfold on_JOIN_AUCTION. by destruct (AuctionService.getAuction _ _ _ _).
  - unfold on_BID_PLACED.
    pose proof (placeBid_service_identity (service srv) id' userId amount
                  (clock 0%nat) (clock 1%nat) (clock 2%nat) auctionId) as H1.
    destruct (AuctionService.placeBid _ _ _ _ _ _ _) as [result svc1].
    by destruct (Auction.success _).
Qed.

Lemma run_identity inputs : ∀ srv auctionId,
  option_Forall2 Identity.same
    (AuctionService.auctions (service srv) !! auctionId)
    (AuctionService.auctions (service (run srv inputs).1) !! auctionId).
Proof.
  induction inputs as [| i rest IH]; intros srv auctionId.
  - simpl. destruct (_ !! _); constructor. apply same_identity_refl.
  - rewrite run_cons. simpl.
    pose proof (step_identity srv i auctionId) as H1.
    specialize (IH (step srv i).1 auctionId).
    destruct H1 as [a a1 Ha |]; inversion IH as [? a2 Ha2 |]; subst;
      constructor.
    by eapply same_identity_trans.
Qed.

(** X8.  No input adds an auction to the registry or removes one: the
    set of registered ids after any run is the set before it, and the
    [id], [title], [startingPrice], [endTime] and [minBidIncrement] of
    every registered auction are what they were. *)
Theorem registry_is_fixed srv inputs :
  dom (AuctionService.auctions (service (run srv inputs).1))
    = dom (AuctionService.auctions (service srv))
  ∧ ∀ auctionId,
      option_Forall2 Identity.same
        (AuctionService.auctions (service srv) !! auctionId)
        (AuctionService.auctions (service (run srv inputs).1) !! auctionId).
Proof.
  split; [|intros auctionId; apply run_identity].
  apply set_eq. intros auctionId. rewrite !elem_of_dom.
  destruct (run_identity inputs srv auctionId) as [a a' _ |].
  - split; intros _; by eexists.
  - split; intros [? ?]; done.
Qed.




Lemma auction_room_inj a b : "auction:" +:+ a = "auction:" +:+ b → a = b.
Proof. intros H. by simplify_eq/=. Qed.

Lemma socket_id_is_no_auction_room socketId auctionId :
  socket_id socketId = true → socketId ≠ "auction:" +:+ auctionId.
Proof. intros Hid ->. discriminate Hid. Qed.

(** X10.  Room membership follows the messages: after [JOIN_AUCTION] the
    socket is in the room of that auction, after [LEAVE_AUCTION] it is
    not, after a disconnection it is in no room; and none of the three
    changes the membership of any other socket or of the same socket in
    any other auction's room. *)
Theorem subscription_follows_join_and_leave srv socketId userId auctionId clock :
  sockets srv !! socketId = Some userId →
  (∀ s a,
     subscribed (step srv (Message socketId (JOIN_AUCTION auctionId) clock)).1 s a
     ↔ (s = socketId ∧ a = auctionId) ∨ subscribed srv s a)
  ∧ (∀ s a,
       subscribed (step srv (Message socketId (LEAVE_AUCTION auctionId) clock)).1 s a
       ↔ ¬ (s = socketId ∧ a = auctionId) ∧ subscribed srv s a)
  ∧ (∀ s a,
       subscribed (step srv (Disconnect socketId)).1 s a
       ↔ s ≠ socketId ∧ subscribed srv s a).
Proof.
  intros Hsock. split; [|split]; intros s a; unfold subscribed; simpl.
  - rewrite Hsock. unfold on_JOIN_AUCTION.
    assert (s ∈ members (join socketId ("auction:" +:+ auctionId) (rooms srv))
                  ("auction:" +:+ a)
            ↔ s = socketId ∧ a = auctionId
              ∨ s ∈ members (rooms srv) ("auction:" +:+ a)) as H.
    { rewrite members_join. case_decide as Heq.
      - apply auction_room_inj in Heq as ->.
        rewrite elem_of_union, elem_of_singleton.
        split; [intros [-> | H]; auto | intros [[-> _] | H]; auto].
      - split; [by right|]. intros [[_ ->] | H]; [done | exact H]. }
    by destruct (AuctionService.getAuction _ _ _ _).
  - rewrite Hsock. simpl. rewrite members_leave. case_decide as Heq.
    + apply auction_room_inj in Heq as ->.
      rewrite elem_of_difference, elem_of_singleton.
      split.
      * intros [H1 H2]. split; [|done]. intros [-> _]. by apply H2.
      * intros [H1 H2]. split; [done|]. intros ->. by apply H1.
    + split; [|by intros [_ H]]. intros H. split; [|done].
      intros [_ ->]. done.
  - rewrite members_disconnect, elem_of_difference, elem_of_singleton.
    split; intros [H1 H2]; by split.
Qed.

Lemma subscription_follows_join_and_leave_witness :
  let srv := (run (start Scenario.one_auction) Scenario.X_leads).1 in
  sockets srv !! "sX" = Some "X"
  ∧ (subscribed
       (step srv (Message "sX" (LEAVE_AUCTION "a1") Scenario.at_1000)).1 "sY" "a1"
     ↔ ¬ ("sY" = "sX" ∧ "a1" = "a1") ∧ subscribed srv "sY" "a1").
Proof.
  intros srv. split; [vm_compute; reflexivity|].
  destruct (subscription_follows_join_and_leave srv "sX" "X" "a1" Scenario.at_1000)
    as (_ & H & _).
  - vm_compute; reflexivity.
  - exact (H "sY" "a1").
Defined.

Lemma step_rooms_connected srv i :
  rooms_connected srv → rooms_connected (step srv i).1.
Proof.
  intros Hinv.
  destruct i as [socketId q | socketId ev clock | socketId]; simpl.
  - intros room s. simpl. rewrite members_join, lookup_insert.
    case_decide as Hroom; [subst room|].
    + rewrite elem_of_union, elem_of_singleton. intros [-> | Hs].
      * by rewrite decide_True.
      * case_decide; [done | by eapply Hinv].
    + intros Hs. case_decide; [done | by eapply Hinv].
  - destruct (sockets srv !! socketId) as [userId|] eqn:Hsock; [|done].
    destruct ev as [id' | id' | id' amount | d | id']; simpl; [| | |done|done].
    + assert (rooms_connected
                (with_rooms srv (join socketId ("auction:" +:+ id') (rooms srv))))
        as H.
      { intros room s. simpl. rewrite members_join.
        case_decide; [|by apply Hinv].
        rewrite elem_of_union, elem_of_singleton.
        intros [-> | Hs]; [by rewrite Hsock | by eapply Hinv]. }
      unfold on_JOIN_AUCTION. by destruct (AuctionService.getAuction _ _ _ _).
    + intros room s. simpl. rewrite members_leave.
      case_decide; [|by apply Hinv].
      rewrite elem_of_difference. intros [Hs _]. by eapply Hinv.
    + unfold on_BID_PLACED.
      destruct (AuctionService.placeBid _ _ _ _ _ _ _) as [result svc1].
      by destruct (Auction.success _).
  - intros room s. simpl.
    rewrite members_disconnect, elem_of_difference, elem_of_singleton.
    intros [Hs Hne]. rewrite lookup_delete_ne by done. by eapply Hinv.
Qed.

Lemma run_rooms_connected inputs : ∀ srv,
  rooms_connected srv → rooms_connected (run srv inputs).1.
Proof.
  induction inputs as [| i rest IH]; intros srv Hinv; [done|].
  rewrite run_cons. simpl. by apply IH, step_rooms_connected.
Qed.

Lemma reachable_rooms_connected srv : reachable srv → rooms_connected srv.
Proof.
  intros (svc & inputs & _ & ->). apply run_rooms_connected.
  intros room s Hs. unfold members in Hs. simpl in Hs.
  rewrite lookup_empty in Hs. by apply not_elem_of_empty in Hs.
Qed.

(** X11.  Nothing is sent to a socket that is not connected: in every
    state the server can reach, whoever receives an emission of a step
    is a connected socket after that step. *)
Theorem emissions_reach_connected_sockets srv i e socketId :
  reachable srv →
  e ∈ (step srv i).2 → socketId ∈ recipients e →
  is_Some (sockets (step srv i).1 !! socketId).
Proof.
  intros Hreach%reachable_rooms_connected He Hs.
  pose proof (step_rooms_connected srv i Hreach) as Hafter.
  destruct i as [s0 q | s0 ev clock | s0]; simpl in *;
    [by apply elem_of_nil in He | | by apply elem_of_nil in He].
  destruct (sockets srv !! s0) as [userId|] eqn:Hsock;
    [|by apply elem_of_nil in He].
  assert (∀ ev', e = socket_emit s0 ev' → is_Some (sockets srv !! socketId)) as Hown.
  { intros ev' ->. simpl in Hs. apply elem_of_singleton in Hs as ->.
    by rewrite Hsock. }
  destruct ev as [id' | id' | id' amount | d | id']; simpl in *.
  - unfold on_JOIN_AUCTION in *.
    destruct (AuctionService.getAuction _ _ _ _); simpl in *;
      [|by apply elem_of_nil in He].
    apply elem_of_cons in He as [-> | He]; [by eapply Hown|].
    apply list_elem_of_singleton in He as ->. exact (Hafter _ _ Hs).
  - apply list_elem_of_singleton in He as ->. exact (Hafter _ _ Hs).
  - unfold on_BID_PLACED in *.
    destruct (AuctionService.placeBid _ _ _ _ _ _ _) as [result svc1].
    destruct (Auction.success _); simpl in *.
    + apply elem_of_cons in He as [-> | He]; [exact (Hafter _ _ Hs)|].
      apply elem_of_cons in He as [-> | He]; [by eapply Hown|].
      destruct (outbid_previous _ _); simpl in He;
        [|by apply elem_of_nil in He].
      apply list_elem_of_singleton in He as ->. exact (Hafter _ _ Hs).
    + apply list_elem_of_singleton in He as ->. by eapply Hown.
  - apply list_elem_of_singleton in He as ->. by eapply Hown.
  - apply list_elem_of_singleton in He as ->. by eapply Hown.
Qed.

Lemma emissions_reach_connected_sockets_witness :
  let srv := (run (start Scenario.one_auction) Scenario.X_leads).1 in
  is_Some (sockets (step srv Scenario.Y_bids_70).1 !! "sX").
Proof.
  intros srv.
  apply (emissions_reach_connected_sockets srv Scenario.Y_bids_70
           (mkEmission (ToRoom "auction:a1") {[ "sX"; "sY" ]}
              (BID_UPDATE "a1" (Some 70) (Some (Some "Y")) (Some (Some "X"))
                 (Some 60) 1000)) "sX").
  - exact X_leads_reachable.
  - assert ((step srv Scenario.Y_bids_70).2
            = [mkEmission (ToRoom "auction:a1") {[ "sX"; "sY" ]}
                 (BID_UPDATE "a1" (Some 70) (Some (Some "Y")) (Some (Some "X"))
                    (Some 60) 1000);
               mkEmission (ToSocket "sY") {[ "sY" ]}
                 (BID_SUCCESS "a1" "Your bid was accepted!" (Some 70));
               mkEmission (ToRoom "user:X") ∅ (OUTBID "a1" (Some 70) "Y" 1000)])
      as -> by (vm_compute; reflexivity).
    apply list_elem_of_here.
  - simpl. apply elem_of_union_l. by apply elem_of_singleton.
Defined.

(** X12.  Joining a room twice is the same as joining it once: the
    second [JOIN_AUCTION] leaves the server as the first left it, so the
    [totalUsers] it announces does not grow.  After a join the socket is
    counted: the room it joined has at least one member. *)
Theorem rejoining_changes_nothing srv socketId userId auctionId clock clock' :
  sockets srv !! socketId = Some userId →
  let srv1 := (step srv (Message socketId (JOIN_AUCTION auctionId) clock)).1 in
  (step srv1 (Message socketId (JOIN_AUCTION auctionId) clock')).1 = srv1
  ∧ (0 < size (members (rooms srv1) ("auction:" +:+ auctionId)))%nat
  ∧ (∀ e, e ∈ (step srv (Message socketId (JOIN_AUCTION auctionId) clock)).2 →
       ∀ joined n, event e = USER_JOINED joined n →
         n = size (members (rooms srv1) ("auction:" +:+ auctionId))
         ∧ socketId ∈ recipients e).
Proof.
  intros Hsock srv1.
  assert (srv1 = with_rooms srv (join socketId ("auction:" +:+ auctionId) (rooms srv)))
    as Hsrv1.
  { subst srv1. simpl. rewrite Hsock. unfold on_JOIN_AUCTION.
    by destruct (AuctionService.getAuction _ _ _ _). }
  assert (socketId ∈ members (rooms srv1) ("auction:" +:+ auctionId)) as Hin.
  { rewrite Hsrv1. simpl. rewrite members_join, decide_True by done.
    apply elem_of_union_l. by apply elem_of_singleton. }
  split; [|split].
  - simpl. rewrite Hsrv1 at 1. simpl. rewrite Hsock. unfold on_JOIN_AUCTION.
    assert (with_rooms
              (with_rooms srv (join socketId ("auction:" +:+ auctionId) (rooms srv)))
              (join socketId ("auction:" +:+ auctionId)
                 (join socketId ("auction:" +:+ auctionId) (rooms srv)))
            = srv1) as Hsame.
    { rewrite Hsrv1. unfold with_rooms. simpl. f_equal.
      unfold join at 1. rewrite members_join, decide_True by done.
      unfold join. rewrite insert_insert_eq. f_equal.
      apply set_eq. intros x. rewrite !elem_of_union. tauto. }
    destruct (AuctionService.getAuction _ _ _ _); simpl;
      rewrite Hsrv1 in Hsame |- *; exact Hsame.
  - destruct (decide (size (members (rooms srv1) ("auction:" +:+ auctionId)) = 0%nat))
      as [Hzero | Hpos]; [|lia].
    apply size_empty_inv in Hzero. apply Hzero in Hin.
    by apply not_elem_of_empty in Hin.
  - intros e He joined n Hev. revert He.
    subst srv1. simpl. rewrite Hsock. unfold on_JOIN_AUCTION.
    destruct (AuctionService.getAuction _ _ _ _); simpl;
      [|by intros ?%elem_of_nil].
    intros [-> | He]%elem_of_cons; [done|].
    apply list_elem_of_singleton in He as ->. simpl in *.
    injection Hev as _ <-. split; [done|].
    rewrite members_join, decide_True by done.
    apply elem_of_union_l. by apply elem_of_singleton.
Qed.

Lemma rejoining_changes_nothing_witness :
  let srv := (run (start Scenario.one_auction) Scenario.X_leads).1 in
  sockets srv !! "sX" = Some "X"
  ∧ (step (step srv (Message "sX" (JOIN_AUCTION "a1") Scenario.at_1000)).1
       (Message "sX" (JOIN_AUCTION "a1") Scenario.at_1000)).1
    = (step srv (Message "sX" (JOIN_AUCTION "a1") Scenario.at_1000)).1.
Proof.
  intros srv. split; [vm_compute; reflexivity|].
  apply (rejoining_changes_nothing srv "sX" "X" "a1" Scenario.at_1000 Scenario.at_1000).
  vm_compute; reflexivity.
Defined.

End MoreSocketFacts.

(** ** The listing *)

Section ListingFacts.

Import SocketHandlers.

(** With distinct identifiers, the [k]-th sample item is registered
    under the [k]-th identifier. *)
Lemma sample_auction_lookup uuidv4 now k title startingPrice :
  Listing.distinct_ids uuidv4 →
  AuctionService.sampleItems !! k = Some (title, startingPrice) →
  AuctionService.auctions (AuctionService.initializeSampleAuctions uuidv4 now)
    !! uuidv4 k
    = Some (Auction.new (uuidv4 k) title startingPrice 300000 (now k)).
Proof.
  intros Hd Hk.
  assert (∀ i j : nat, (i < 6)%nat → (j < 6)%nat → i ≠ j → uuidv4 i ≠ uuidv4 j)
    as Hne by (intros i j Hi Hj Hij E; by apply Hij, Hd).
  unfold AuctionService.initializeSampleAuctions, AuctionService.sampleItems in *.
  simpl.
  do 6 (destruct k as [| k];
        [simpl in Hk; injection Hk as <- <-;
         repeat (rewrite lookup_insert_ne by (apply Hne; lia));
         by rewrite lookup_insert_eq |]).
  done.
Qed.

(** The [k]-th sample item after any run of the server. *)
Lemma sample_auction_after_run uuidv4 now inputs k title startingPrice :
  Listing.distinct_ids uuidv4 →
  AuctionService.sampleItems !! k = Some (title, startingPrice) →
  ∃ a,
    AuctionService.auctions
      (service (run (start (AuctionService.initializeSampleAuctions uuidv4 now))
                  inputs).1) !! uuidv4 k = Some a
    ∧ Auction.id a = uuidv4 k
    ∧ Auction.title a = title
    ∧ Auction.startingPrice a = startingPrice
    ∧ startingPrice ≤ Auction.currentBid a.
Proof.
  intros Hd Hk.
  pose proof (sample_auction_lookup uuidv4 now k title startingPrice Hd Hk) as H0.
  pose proof (run_identity inputs
                (start (AuctionService.initializeSampleAuctions uuidv4 now))
                (uuidv4 k)) as Hid.
  cbn [service start] in Hid. rewrite H0 in Hid.
  inversion Hid as [? a (Hi & Ht & Hs & _) Heq |]; subst.
  exists a. split; [done|].
  assert (Auction.invariant a) as Hinv.
  { apply reachable_invariant.
    eapply (run_registry_ok inputs
              (start (AuctionService.initializeSampleAuctions uuidv4 now)));
      [apply initial_registry_ok | by symmetry]. }
  simpl in Hi, Ht, Hs.
  repeat split; try done.
  rewrite <- Hs. apply Hinv.
Qed.

(** X13.  When the six identifiers drawn at start differ, [GET /items]
    lists, after any run of the server, the six sample items in the
    order of the source, each under its identifier, with its title and
    starting price, and with a current bid that is not below the
    starting price. *)
Theorem listing_shows_the_sample_items uuidv4 now inputs clock :
  Listing.distinct_ids uuidv4 →
  let svc := service (run (start (AuctionService.initializeSampleAuctions
                                    uuidv4 now)) inputs).1 in
  let items := Listing.getAllAuctions svc (Listing.sample_order uuidv4) clock in
  Auction.s_id <$> items = Listing.sample_order uuidv4
  ∧ (λ s, (Auction.s_title s, Auction.s_startingPrice s)) <$> items
      = AuctionService.sampleItems
  ∧ Forall (λ s, Auction.s_startingPrice s ≤ Auction.s_currentBid s) items.
Proof.
  intros Hd svc items. subst svc items.
  destruct (sample_auction_after_run uuidv4 now inputs 0 _ _ Hd eq_refl)
    as (a0 & H0 & Hi0 & Ht0 & Hs0 & Hf0).
  destruct (sample_auction_after_run uuidv4 now inputs 1 _ _ Hd eq_refl)
    as (a1 & H1 & Hi1 & Ht1 & Hs1 & Hf1).
  destruct (sample_auction_after_run uuidv4 now inputs 2 _ _ Hd eq_refl)
    as (a2 & H2 & Hi2 & Ht2 & Hs2 & Hf2).
  destruct (sample_auction_after_run uuidv4 now inputs 3 _ _ Hd eq_refl)
    as (a3 & H3 & Hi3 & Ht3 & Hs3 & Hf3).
  destruct (sample_auction_after_run uuidv4 now inputs 4 _ _ Hd eq_refl)
    as (a4 & H4 & Hi4 & Ht4 & Hs4 & Hf4).
  destruct (sample_auction_after_run uuidv4 now inputs 5 _ _ Hd eq_refl)
    as (a5 & H5 & Hi5 & Ht5 & Hs5 & Hf5).
  unfold Listing.getAllAuctions, Listing.sample_order. simpl.
  rewrite H0, H1, H2, H3, H4, H5. simpl.
  rewrite Hi0, Hi1, Hi2, Hi3, Hi4, Hi5, Ht0, Ht1, Ht2, Ht3, Ht4, Ht5,
    Hs0, Hs1, Hs2, Hs3, Hs4, Hs5.
  split; [done|]. split; [done|].
  repeat constructor; simpl; lia.
Qed.

Lemma listing_shows_the_sample_items_witness :
  Listing.distinct_ids (λ k, pretty k)
  ∧ Auction.s_id
      <$> Listing.getAllAuctions
            (service (run (start (AuctionService.initializeSampleAuctions
                                    (λ k, pretty k) (λ _, 0)))
                        [Connection "sX" (Some "X");
                         Message "sX" (BID_PLACED "0" (JsNumber 60))
                           Scenario.at_1000]).1)
            (Listing.sample_order (λ k, pretty k)) (λ _, (1000, 1000))
    = ["0"; "1"; "2"; "3"; "4"; "5"].
Proof.
  assert (Listing.distinct_ids (λ k, pretty k)) as Hd.
  { intros i j Hi Hj.
    do 6 (destruct i as [| i]; [do 6 (destruct j as [| j]; [done || discriminate |]); lia |]).
    lia. }
  split; [exact Hd|].
  apply (listing_shows_the_sample_items (λ k, pretty k) (λ _, 0)
           [Connection "sX" (Some "X");
            Message "sX" (BID_PLACED "0" (JsNumber 60)) Scenario.at_1000]
           (λ _, (1000, 1000)) Hd).
Defined.

End ListingFacts.

(** ** The countdown of the client *)

Section CountdownFacts.

Import CountdownTimer.

Lemma string_length_app (s1 s2 : string) :
  String.length (s1 +:+ s2) = (String.length s1 + String.length s2)%nat.
Proof. induction s1 as [| c s1 IH]; simpl; [done | by rewrite IH]. Qed.

Lemma fill_length n c pad : ∀ rest,
  String.length (fill n rest (String c pad)) = n.
Proof.
  induction n as [| n IH]; intros rest; [done|].
  destruct rest; simpl; by rewrite IH.
Qed.

(** Padding with a non-empty string reaches the target length and never
    shortens. *)
Lemma padStart_length n c pad s :
  String.length (padStart n (String c pad) s) = (n `max` String.length s)%nat.
Proof. unfold padStart. rewrite string_length_app, fill_length. lia. Qed.

(** The numerals below one hundred, padded to two characters. *)
Lemma two_digits n :
  0 ≤ n < 100 →
  padStart 2 "0" (pretty n) = (if n <? 10 then "0" +:+ pretty n else pretty n)
  ∧ String.length (padStart 2 "0" (pretty n)) = 2%nat.
Proof.
  intros Hn.
  assert (Forall (λ n : Z,
            padStart 2 "0" (pretty n)
              = (if n <? 10 then "0" +:+ pretty n else pretty n)
            ∧ String.length (padStart 2 "0" (pretty n)) = 2%nat) (seqZ 0 100))
    as Hall by (apply (bool_decide_unpack _); vm_compute; exact I).
  rewrite Forall_forall in Hall. apply Hall, elem_of_seqZ. lia.
Qed.

(** X14.  For a remaining time of [ms >= 0] milliseconds, [formatTime]
    prints minutes [m], seconds [s] between 0 and 59 and hundredths [c]
    between 0 and 99 such that [60000 m + 1000 s + 10 c] is [ms] rounded
    down to a multiple of ten; seconds and hundredths are printed on
    exactly two characters, with a leading 0 below ten, and minutes on
    at least two. *)
Theorem formatTime_reads_as_a_clock ms :
  0 ≤ ms →
  let m := (clock_face ms).1.1 in
  let s := (clock_face ms).1.2 in
  let c := (clock_face ms).2 in
  0 ≤ m ∧ 0 ≤ s < 60 ∧ 0 ≤ c < 100
  ∧ 60000 * m + 1000 * s + 10 * c ≤ ms < 60000 * m + 1000 * s + 10 * c + 10
  ∧ totalSeconds (formatTime ms) = 60 * m + s
  ∧ minutes (formatTime ms) = padStart 2 "0" (pretty m)
  ∧ (2 ≤ String.length (minutes (formatTime ms)))%nat
  ∧ seconds (formatTime ms) = (if s <? 10 then "0" +:+ pretty s else pretty s)
  ∧ String.length (seconds (formatTime ms)) = 2%nat
  ∧ milliseconds (formatTime ms) = (if c <? 10 then "0" +:+ pretty c else pretty c)
  ∧ String.length (milliseconds (formatTime ms)) = 2%nat.
Proof.
  intros Hms m s c. subst m s c. unfold clock_face, formatTime. simpl.
  assert (0 ≤ ms / 1000) as Hq by (apply Z.div_pos; lia).
  rewrite !Z.rem_mod_nonneg by lia.
  pose proof (Z.mod_pos_bound (ms / 1000) 60 ltac:(lia)) as Hs.
  pose proof (Z.mod_pos_bound ms 1000 ltac:(lia)) as Hr.
  pose proof (Z.div_mod (ms / 1000) 60 ltac:(lia)) as Hm.
  pose proof (Z.div_mod ms 1000 ltac:(lia)) as Ht.
  pose proof (Z.div_mod (ms `mod` 1000) 10 ltac:(lia)) as Hc.
  pose proof (Z.mod_pos_bound (ms `mod` 1000) 10 ltac:(lia)) as Hc'.
  assert (0 ≤ ms `mod` 1000 / 10 < 100) as Hcs
    by (split; [apply Z.div_pos; lia | apply Z.div_lt_upper_bound; lia]).
  destruct (two_digits ((ms / 1000) `mod` 60) ltac:(lia)) as [Hs1 Hs2].
  destruct (two_digits _ Hcs) as [Hc1 Hc2].
  split; [apply Z.div_pos; lia|].
  split; [done|]. split; [done|]. split; [lia|]. split; [lia|].
  split; [done|].
  split; [rewrite padStart_length; lia|].
  done.
Qed.

Lemma formatTime_reads_as_a_clock_witness :
  0 ≤ 299990
  ∧ minutes (formatTime 299990) = "04"
  ∧ seconds (formatTime 299990) = "59"
  ∧ milliseconds (formatTime 299990) = "99".
Proof.
  split; [lia|].
  destruct (formatTime_reads_as_a_clock 299990) as (_&_&_&_&_& Hm &_& Hs &_& Hc &_);
    [lia|].
  split; [exact Hm|]. split; [exact Hs | exact Hc].
Defined.

(** X15.  After the client has synchronised on a server time received at
    local time [received_at], the countdown it shows at local time
    [local_now] is the time the server's auction has left at
    [serverTime + (local_now - received_at)]: it does not depend on the
    offset held before nor on how far the local clock is off, and the
    card counts as expired exactly when the auction is not active at
    that server time.  Without a time function the countdown is 0. *)
Theorem countdown_follows_server_clock c serverTime received_at local_now a skew :
  let estimate := serverTime + (local_now - received_at) in
  let synced := Client.syncServerTime c serverTime received_at in
  let shown :=
    calculateTimeRemaining (Auction.endTime a)
      (Some (Client.getClientServerTime synced)) local_now in
  shown = Auction.getTimeRemaining a estimate
  ∧ isExpired shown = negb (Auction.isActive a estimate)
  ∧ calculateTimeRemaining (Auction.endTime a)
      (Some (Client.getClientServerTime
               (Client.syncServerTime c serverTime (received_at + skew))))
      (local_now + skew) = shown
  ∧ (∀ c', calculateTimeRemaining (Auction.endTime a)
             (Some (Client.getClientServerTime
                      (Client.syncServerTime c' serverTime received_at)))
             local_now = shown)
  ∧ calculateTimeRemaining (Auction.endTime a) None local_now = 0.
Proof.
  simpl. unfold Client.getClientServerTime, AuctionContext.getClientServerTime,
    Auction.getTimeRemaining, Auction.isActive, isExpired. simpl.
  replace (local_now + (serverTime - received_at))
    with (serverTime + (local_now - received_at)) by lia.
  replace (local_now + skew + (serverTime - (received_at + skew)))
    with (serverTime + (local_now - received_at)) by lia.
  repeat split.
  destruct (Z.ltb_spec (serverTime + (local_now - received_at)) (Auction.endTime a));
    simpl; [apply Z.eqb_neq | apply Z.eqb_eq]; lia.
Qed.

End CountdownFacts.

(** ** The client against the server *)

Section ClientFacts.

Import SocketHandlers Delivery.

Local Arguments outbid_previous : simpl never.

(** An accepted bid of the service: what was registered, what was bid,
    what is returned and stored. *)
Lemma service_success_inv svc auctionId userId v t1 t2 t3 :
  Auction.success
    (AuctionService.bid
       (AuctionService.placeBid svc auctionId userId v t1 t2 t3).1) = true →
  ∃ a n,
    AuctionService.auctions svc !! auctionId = Some a
    ∧ v = JsNumber n ∧ 0 < n
    ∧ AuctionService.placeBid svc auctionId userId v t1 t2 t3
      = ({| AuctionService.bid :=
              Auction.placed n (Auction.currentBid a) (Auction.highestBidder a)
                userId;
            AuctionService.r_auctionId := Some auctionId;
            AuctionService.statusCode := 200 |},
         {| AuctionService.auctions :=
              <[auctionId :=
                  Auction.set_biddingLock false (Auction.commit a userId n t3)]>
                (AuctionService.auctions svc) |}).
Proof.
  unfold AuctionService.placeBid.
  destruct (AuctionService.auctions svc !! auctionId) as [a|]; [|done].
  destruct (negb (String.eqb (typeof v) "number") || (number_of v <=? 0))
    eqn:Hvalid; [done|].
  apply valid_amount_is_number in Hvalid as (n & -> & Hn). simpl number_of.
  pose proof (placeBid_success a userId n t1 t2 t3) as Hcommit.
  destruct (Auction.placeBid a userId n t1 t2 t3) as [r a']. simpl.
  intros Hsuccess. specialize (Hcommit Hsuccess). injection Hcommit as -> ->.
  by exists a, n.
Qed.

(** Payloads that leave the client's list of auctions alone. *)
Lemma on_events_keep_items evs : ∀ c,
  (∀ ev, ev ∈ evs.*1 →
     match ev with
     | BID_UPDATE _ _ _ _ _ _ | AUCTION_STATE _ _ => False
     | _ => True
     end) →
  ∃ c', Client.on_events c evs = Some c'
        ∧ Client.auctions c' = Client.auctions c.
Proof.
  induction evs as [| [ev now] evs IH]; intros c Hall; [by exists c|].
  assert (∃ c1, Client.on_event c ev now = Some c1
                ∧ Client.auctions c1 = Client.auctions c) as (c1 & Hc1 & Hitems).
  { specialize (Hall ev (list_elem_of_here _ _)).
    destruct ev; simpl in *; try done; by eexists. }
  destruct (IH c1) as (c' & Hc' & Hitems').
  { intros ev' Hev'. apply Hall. by apply list_elem_of_further. }
  exists c'. simpl. rewrite Hc1. split; [done | congruence].
Qed.

Lemma handleBidUpdate_items c auctionId newBid highestBidder item :
  item ∈ Client.auctions (Client.handleBidUpdate c auctionId newBid highestBidder) →
  Client.i_id item = auctionId →
  Client.i_currentBid item = newBid ∧ Client.i_highestBidder item = highestBidder.
Proof.
  intros Hin Hid.
  assert (item ∈ (λ auction,
                    if String.eqb (Client.i_id auction) auctionId
                    then Client.with_bid auction newBid highestBidder
                    else auction) <$> Client.auctions c) as Hin'.
  { unfold Client.handleBidUpdate in Hin. by case_bool_decide. }
  apply list_elem_of_fmap in Hin' as (old & -> & _).
  destruct (String.eqb_spec (Client.i_id old) auctionId) as [_ | Hne];
    [done | by destruct Hne].
Qed.

(** X16.  When a bid is accepted, every socket in the room of the
    auction is sent the update, and a client that handles what its
    socket was sent ends up showing, for that auction, the price and the
    leader the registry now holds. *)
Theorem subscribers_see_the_accepted_bid
    srv socketId userId auctionId amount clock subscriber c evs :
  sockets srv !! socketId = Some userId →
  Auction.success
    (AuctionService.bid
       (AuctionService.placeBid (service srv) auctionId userId amount
          (clock 0%nat) (clock 1%nat) (clock 2%nat)).1) = true →
  subscribed srv subscriber auctionId →
  evs.*1
    = received subscriber
        (step srv (Message socketId (BID_PLACED auctionId amount) clock)).2 →
  ∃ c' a',
    Client.on_events c evs = Some c'
    ∧ AuctionService.auctions
        (service (step srv (Message socketId (BID_PLACED auctionId amount) clock)).1)
        !! auctionId = Some a'
    ∧ ∀ item, item ∈ Client.auctions c' →
        Client.i_id item = auctionId →
        Client.i_currentBid item = Some (Auction.currentBid a')
        ∧ Client.i_highestBidder item = Some (Auction.highestBidder a').
Proof.
  intros Hsock Hsuccess Hsub. simpl. rewrite Hsock. unfold on_BID_PLACED.
  destruct (service_success_inv _ _ _ _ _ _ _ Hsuccess)
    as (a & n & Ha & -> & Hn & Hbid).
  rewrite Hbid. simpl. unfold received.
  rewrite filter_cons_True by exact Hsub. rewrite fmap_cons.
  intros (x & evs' & Hx & Hrest & ->)%fmap_cons_inv.
  destruct x as [ev now]. simpl in Hx. subst ev.
  destruct (on_events_keep_items evs'
              (Client.handleBidUpdate c auctionId (Some n) (Some (Some userId))))
    as (c' & Hc' & Hitems).
  { intros ev. rewrite <- Hrest.
    intros (e & -> & [_ He]%list_elem_of_filter)%list_elem_of_fmap.
    apply elem_of_cons in He as [-> | He]; [done|].
    destruct (outbid_previous _ _); simpl in He.
    - by apply list_elem_of_singleton in He as ->.
    - by apply elem_of_nil in He. }
  exists c', (Auction.set_biddingLock false
                (Auction.commit a userId n (clock 2%nat))).
  split; [exact Hc'|]. split; [by rewrite lookup_insert_eq|].
  intros item Hin Hid. rewrite Hitems in Hin.
  by apply (handleBidUpdate_items c auctionId (Some n) (Some (Some userId))).
Qed.
Lemma subscribers_see_the_accepted_bid_witness :
  let srv := (run (start Scenario.one_auction) Scenario.X_leads).1 in
  let evs := (λ ev, (ev, 2000))
               <$> received "sX" (step srv Scenario.Y_bids_70).2 in
  ∃ c' a',
    Client.on_events Page.client_of_X evs = Some c'
    ∧ AuctionService.auctions (service (step srv Scenario.Y_bids_70).1) !! "a1"
        = Some a'
    ∧ ∀ item, item ∈ Client.auctions c' →
        Client.i_id item = "a1" →
        Client.i_currentBid item = Some (Auction.currentBid a')
        ∧ Client.i_highestBidder item = Some (Auction.highestBidder a').
Proof.
  intros srv evs.
  apply (subscribers_see_the_accepted_bid srv "sY" "Y" "a1" (JsNumber 70)
           Scenario.at_1000 "sX" Page.client_of_X evs).
  - vm_compute; reflexivity.
  - vm_compute; reflexivity.
  - unfold subscribed. apply (bool_decide_unpack _). vm_compute. exact I.
  - vm_compute; reflexivity.
Defined.

(** An [OUTBID] emitted by a step has no receiver when no socket is in a
    [user:...] room. *)
Lemma step_outbid_unreceived srv i e :
  no_user_room (rooms srv) →
  e ∈ (step srv i).2 → is_OUTBID e = true → recipients e = ∅.
Proof.
  intros Hnone He Hout.
  destruct i as [s0 q | s0 ev clock | s0]; simpl in He;
    [by apply elem_of_nil in He | | by apply elem_of_nil in He].
  destruct (sockets srv !! s0) as [userId|]; [|by apply elem_of_nil in He].
  destruct ev as [id' | id' | id' amount | d | id']; simpl in He.
  - unfold on_JOIN_AUCTION in He.
    destruct (AuctionService.getAuction _ _ _ _); simpl in He;
      [|by apply elem_of_nil in He].
    apply elem_of_cons in He as [-> | He]; [done|].
    by apply list_elem_of_singleton in He as ->.
  - by apply list_elem_of_singleton in He as ->.
  - unfold on_BID_PLACED in He.
    destruct (AuctionService.placeBid _ _ _ _ _ _ _) as [result svc1].
    destruct (Auction.success _); simpl in He;
      [|by apply list_elem_of_singleton in He as ->].
    apply elem_of_cons in He as [-> | He]; [done|].
    apply elem_of_cons in He as [-> | He]; [done|].
    destruct (outbid_previous _ _) as [previous|]; simpl in He;
      [|by apply elem_of_nil in He].
    apply list_elem_of_singleton in He as ->. apply Hnone.
  - by apply list_elem_of_singleton in He as ->.
  - by apply list_elem_of_singleton in He as ->.
Qed.

Lemma run_outbid_unreceived inputs : ∀ srv e,
  Forall well_formed inputs →
  no_user_room (rooms srv) →
  e ∈ (run srv inputs).2 → is_OUTBID e = true → recipients e = ∅.
Proof.
  induction inputs as [| i rest IH]; intros srv e Hwf Hnone He Hout;
    [by apply elem_of_nil in He|].
  inversion Hwf as [| ? ? Hi Hrest]; subst.
  rewrite run_cons in He. simpl in He.
  apply elem_of_app in He as [He | He].
  - by eapply step_outbid_unreceived.
  - eapply (IH (step srv i).1); try done.
    intros previous. by apply step_no_user_room.
Qed.

(** A payload other than [OUTBID] never takes a winning mark away. *)
Lemma on_event_keeps_winning c ev now c' auctionId :
  (∀ a b d t, ev ≠ OUTBID a b d t) →
  Client.on_event c ev now = Some c' →
  Client.userBids c !! auctionId = Some true →
  Client.userBids c' !! auctionId = Some true.
Proof.
  intros Hev Hc' Hwin.
  destruct ev as [st t | | | id' nb hb pb pv t | | id' nb by_ t | | t ct];
    simpl in Hc'; simplify_eq; try done.
  - unfold Client.handleAuctionState in Hc'.
    destruct st; [by simplify_eq|].
    simpl in Hc'. destruct (Client.auctions c); by simplify_eq.
  - unfold Client.handleBidUpdate. case_bool_decide; [|done].
    simpl. destruct (decide (id' = auctionId)) as [-> | Hne].
    + by rewrite lookup_insert_eq.
    + by rewrite lookup_insert_ne.
  - by destruct (Hev id' nb by_ t).
Qed.

Lemma on_events_keep_winning evs : ∀ c c' auctionId,
  (∀ ev, ev ∈ evs.*1 → ∀ a b d t, ev ≠ OUTBID a b d t) →
  Client.on_events c evs = Some c' →
  Client.userBids c !! auctionId = Some true →
  Client.userBids c' !! auctionId = Some true.
Proof.
  induction evs as [| [ev now] evs IH]; intros c c' auctionId Hall Hc' Hwin;
    simpl in Hc'; [by simplify_eq|].
  destruct (Client.on_event c ev now) as [c1|] eqn:Hc1; [|done].
  eapply (IH c1); [|exact Hc'|].
  - intros ev' Hev'. apply Hall. by apply list_elem_of_further.
  - eapply on_event_keeps_winning; [|exact Hc1|exact Hwin].
    apply Hall. apply list_elem_of_here.
Qed.

(** X17.  The server never makes a client take back its winning mark:
    whatever the server sends a socket in a run from a reachable state,
    an auction the client has marked as won-so-far ([userBids] true)
    is still marked so after the client has handled all of it, also when
    another bidder has taken the lead in between. *)
Theorem winning_mark_is_never_cleared srv inputs socketId c evs c' auctionId :
  reachable srv →
  Forall well_formed inputs →
  evs.*1 = received socketId (run srv inputs).2 →
  Client.on_events c evs = Some c' →
  Client.userBids c !! auctionId = Some true →
  Client.isWinning c' auctionId = true.
Proof.
  intros Hreach%reachable_no_user_room Hwf Hevs Hc' Hwin.
  unfold Client.isWinning.
  rewrite (on_events_keep_winning evs c c' auctionId); [done| |done|done].
  intros ev. rewrite Hevs. unfold received.
  intros (e & -> & [Hin He]%list_elem_of_filter)%list_elem_of_fmap a b d t Hev.
  assert (is_OUTBID e = true) as Hout by (unfold is_OUTBID; by rewrite Hev).
  rewrite (run_outbid_unreceived inputs srv e Hwf Hreach He Hout) in Hin.
  by apply not_elem_of_empty in Hin.
Qed.

Lemma winning_mark_is_never_cleared_witness :
  let srv := (run (start Scenario.one_auction) Scenario.X_leads).1 in
  let evs := (λ ev, (ev, 2000))
               <$> received "sX" (run srv [Scenario.Y_bids_70]).2 in
  ∃ c',
    Client.on_events Page.client_of_X evs = Some c'
    ∧ Client.i_highestBidder <$> Client.auctions c' = [Some (Some "Y")]
    ∧ Client.isWinning c' "a1" = true.
Proof.
  intros srv evs.
  destruct (Client.on_events Page.client_of_X evs) as [c'|] eqn:Hc';
    [|vm_compute in Hc'; discriminate Hc'].
  exists c'. split; [reflexivity|]. split.
  - vm_compute in Hc'. injection Hc' as <-. reflexivity.
  - apply (winning_mark_is_never_cleared srv [Scenario.Y_bids_70] "sX"
             Page.client_of_X evs c' "a1").
    + exact X_leads_reachable.
    + repeat constructor.
    + vm_compute; reflexivity.
    + exact Hc'.
    + reflexivity.
Defined.



End ClientFacts.

(** ** The history as a log *)

Section HistoryFacts.

Import Auction.

Lemma placeBid_failure_keeps_history a u amt t1 t2 t3 :
  success (placeBid a u amt t1 t2 t3).1 = false →
  bidHistory (placeBid a u amt t1 t2 t3).2 = bidHistory a.
Proof.
  unfold placeBid, locked_section.
  change (isActive (set_biddingLock true a) t2) with (isActive a t2).
  change (getMinimumNextBid (set_biddingLock true a)) with (getMinimumNextBid a).
  destruct (negb (isActive a t1)); [done|].
  destruct (amt <? getMinimumNextBid a); [done|].
  destruct (biddingLock a); [done|].
  destruct (negb (isActive a t2)); [done|]. simpl. discriminate.
Qed.

Lemma call_extends_history a c :
  bidHistory (call a c).2
    = bidHistory a
      ++ (if success (call a c).1
          then [mkBid (c_userId c) (c_amount c) (c_push c)] else []).
Proof.
  unfold call. destruct (success (placeBid a _ _ _ _ _).1) eqn:Hs.
  - by rewrite (placeBid_success _ _ _ _ _ _ Hs).
  - rewrite placeBid_failure_keeps_history by done. by rewrite app_nil_r.
Qed.

(** X19.  The history is the log of the accepted bids: after a run of
    calls on any auction object, [bidHistory] is what it was before,
    untouched, followed by one entry for each call that reported
    success, in call order, holding that call's bidder, amount and the
    clock value read when the entry was pushed. *)
Theorem history_is_the_log_of_accepted_bids cs : ∀ a,
  bidHistory (run a cs).2
    = bidHistory a
      ++ ((λ cr, mkBid (c_userId cr.1) (c_amount cr.1) (c_push cr.1))
            <$> filter (λ cr, success cr.2 = true) (zip cs (run a cs).1)).
Proof.
  induction cs as [| c cs IH]; intros a; simpl; [by rewrite app_nil_r|].
  pose proof (call_extends_history a c) as Hstep.
  destruct (call a c) as [r a1]. simpl in Hstep.
  specialize (IH a1). destruct (run a1 cs) as [rs a2]. simpl in *.
  rewrite IH, Hstep, filter_cons. simpl.
  destruct (success r); simpl; by rewrite <- app_assoc.
Qed.

End HistoryFacts.

(** ** Joining and asking for the state *)

Section JoinFacts.

Import SocketHandlers Delivery.

(** X20.  Joining brings the card up to date: on [JOIN_AUCTION] for a
    registered auction the joining socket is sent the snapshot and then
    the head count; a client that handles both has its clock set to the
    server's time at the moment of receipt, keeps as many auctions as it
    had, and every auction it holds under that id is the snapshot. *)
Theorem joining_brings_the_card_up_to_date
    srv socketId userId auctionId a clock c evs :
  sockets srv !! socketId = Some userId →
  AuctionService.auctions (service srv) !! auctionId = Some a →
  Auction.id a = auctionId →
  evs.*1
    = received socketId
        (step srv (Message socketId (JOIN_AUCTION auctionId) clock)).2 →
  ∃ c' received_at rest,
    evs = (AUCTION_STATE
             (Some (Auction.getState a (clock 0%nat) (clock 1%nat)))
             (clock 2%nat), received_at) :: rest
    ∧ Client.on_events c evs = Some c'
    ∧ Client.getClientServerTime c' received_at = clock 2%nat
    ∧ length (Client.auctions c') = length (Client.auctions c)
    ∧ ∀ item, item ∈ Client.auctions c' →
        Client.i_id item = auctionId →
        item = Client.of_state (Auction.getState a (clock 0%nat) (clock 1%nat)).
Proof.
  intros Hsock Ha Hid. simpl. rewrite Hsock.
  unfold on_JOIN_AUCTION, AuctionService.getAuction. simpl. rewrite Ha.
  unfold received. simpl.
  rewrite filter_cons_True by (simpl; by apply elem_of_singleton).
  rewrite filter_cons_True.
  2:{ simpl. rewrite members_join, decide_True by done.
      apply elem_of_union_l. by apply elem_of_singleton. }
  rewrite filter_nil. simpl.
  intros (x & evs' & Hx & (y & evs'' & Hy & Hnil & ->)%eq_sym%fmap_cons_inv & ->)
    %fmap_cons_inv.
  symmetry in Hnil. apply fmap_nil_inv in Hnil as ->.
  destruct x as [ev1 t1], y as [ev2 t2]. simpl in Hx, Hy. subst ev1 ev2.
  eexists _, t1, _. split; [reflexivity|]. simpl.
  split; [reflexivity|]. simpl.
  split; [unfold Client.getClientServerTime, AuctionContext.getClientServerTime;
          simpl; lia|].
  split; [by rewrite length_fmap|].
  intros item (old & -> & _)%list_elem_of_fmap Hitem.
  destruct (String.eqb_spec (Client.i_id old) (Auction.id a)) as [_ | Hne];
    [done | by rewrite Hid in Hne].
Qed.

Lemma joining_brings_the_card_up_to_date_witness :
  let srv := (run (start Scenario.one_auction) Scenario.X_leads).1 in
  let a := Auction.set_biddingLock false
             (Auction.commit (Auction.new "a1" "Vintage Camera" 50 300000 0)
                "X" 60 1000) in
  let evs := (λ ev, (ev, 7))
               <$> received "sY"
                     (step srv (Message "sY" (JOIN_AUCTION "a1") Scenario.at_1000)).2 in
  ∃ c' received_at rest,
    evs = (AUCTION_STATE (Some (Auction.getState a 1000 1000)) 1000, received_at)
          :: rest
    ∧ Client.on_events Page.client_of_X evs = Some c'
    ∧ Client.getClientServerTime c' received_at = 1000
    ∧ length (Client.auctions c') = length (Client.auctions Page.client_of_X)
    ∧ ∀ item, item ∈ Client.auctions c' →
        Client.i_id item = "a1" →
        item = Client.of_state (Auction.getState a 1000 1000).
Proof.
  intros srv a evs.
  apply (joining_brings_the_card_up_to_date srv "sY" "Y" "a1" a Scenario.at_1000
           Page.client_of_X evs).
  - vm_compute; reflexivity.
  - vm_compute; reflexivity.
  - reflexivity.
  - vm_compute; reflexivity.
Defined.

(** X21.  [GET_AUCTION_STATE] for an id the registry does not hold is
    answered with [auction: null], and the client's handler for
    [AUCTION_STATE] throws on it as soon as the client holds at least
    one auction (it reads [auction.id]); a client with no auction only
    sets its clock. *)
Theorem state_of_unknown_auction_breaks_the_client
    srv socketId userId auctionId clock c now :
  sockets srv !! socketId = Some userId →
  AuctionService.auctions (service srv) !! auctionId = None →
  step srv (Message socketId (GET_AUCTION_STATE auctionId) clock)
    = (srv, [socket_emit socketId (AUCTION_STATE None (clock 2%nat))])
  ∧ (Client.auctions c ≠ [] →
     Client.on_event c (AUCTION_STATE None (clock 2%nat)) now = None)
  ∧ (Client.auctions c = [] →
     Client.on_event c (AUCTION_STATE None (clock 2%nat)) now
       = Some (Client.syncServerTime c (clock 2%nat) now)).
Proof.
  intros Hsock Ha. split; [|split].
  - simpl. rewrite Hsock.
    unfold on_GET_AUCTION_STATE, AuctionService.getAuction. by rewrite Ha.
  - intros Hne. simpl. unfold Client.handleAuctionState. simpl.
    by destruct (Client.auctions c).
  - intros Hnil. simpl. unfold Client.handleAuctionState. simpl.
    by rewrite Hnil.
Qed.

Lemma state_of_unknown_auction_breaks_the_client_witness :
  let srv := (run (start Scenario.one_auction) Scenario.X_leads).1 in
  sockets srv !! "sX" = Some "X"
  ∧ Client.on_events Page.client_of_X
      ((λ ev, (ev, 7))
         <$> received "sX"
               (step srv (Message "sX" (GET_AUCTION_STATE "no-such-auction")
                            Scenario.at_1000)).2) = None.
Proof.
  intros srv. split; [vm_compute; reflexivity|].
  destruct (state_of_unknown_auction_breaks_the_client srv "sX" "X"
              "no-such-auction" Scenario.at_1000 Page.client_of_X 7)
    as (Hstep & Hthrow & _).
  - vm_compute; reflexivity.
  - vm_compute; reflexivity.
  - rewrite Hstep. unfold received. cbn [snd].
    rewrite filter_cons_True by (simpl; by apply elem_of_singleton).
    rewrite filter_nil. cbn [fmap list_fmap event socket_emit Client.on_events].
    rewrite Hthrow; [reflexivity | discriminate].
Defined.

End JoinFacts.
